(** * MemStorage: the in-memory data-access layer of the task-board server

    Shallow embedding of [class MemStorage] (server storage module) and of the
    row types of [shared/schema.ts].  A JavaScript [Map<number, V>] is an
    insertion-ordered association list with unique keys; handles and
    timestamps are integers ([Date] values as milliseconds); the clock
    reading [new Date()] of an operation is an explicit argument [now].
    Every method of [MemStorage] is [async] but contains no suspension point
    before its last write, so each call is one atomic step [exec] of the
    store. *)

From Stdlib Require Import ZArith List String Bool Sorted Lia.
Import ListNotations.
Open Scope Z_scope.

(** ** JavaScript [Map<number, V>] *)
Module JsMap.
Section Ops.
Variable V : Type.

Definition t := list (Z * V).

Definition keys (m : t) : list Z := map fst m.
Definition values (m : t) : list V := map snd m.

(** [m.get(k)] *)
Fixpoint get (k : Z) (m : t) : option V :=
  match m with
  | [] => None
  | (k', v) :: m' => if Z.eqb k' k then Some v else get k m'
  end.

(** [m.has(k)] *)
Definition has (k : Z) (m : t) : bool := existsb (fun e => Z.eqb (fst e) k) m.

(** [m.set(k, v)]: overwrites in place when the key exists, appends otherwise. *)
Definition set (k : Z) (v : V) (m : t) : t :=
  if has k m
  then map (fun e => if Z.eqb (fst e) k then (k, v) else e) m
  else m ++ [(k, v)].

(** [m.delete(k)] drops the entry of [k]; its result is [has k m]. *)
Definition delete (k : Z) (m : t) : t :=
  filter (fun e => negb (Z.eqb (fst e) k)) m.

(** [for (const [k, v] of m.entries()) if (p(v)) m.delete(k);]
    A Map iterator visits every entry not deleted before it is reached; the
    loop body only deletes the entry being visited, so the loop visits
    exactly the entries [es] the map had when the loop started. *)
Fixpoint delete_where (p : V -> bool) (es : t) (m : t) : t :=
  match es with
  | [] => m
  | (k, v) :: es' => delete_where p es' (if p v then delete k m else m)
  end.

(** [Array.from(m.values()).find(p)] *)
Definition find_value (p : V -> bool) (m : t) : option V :=
  match find (fun e => p (snd e)) m with
  | Some (_, v) => Some v
  | None => None
  end.

(** first entry of [m.entries()] whose value satisfies [p] *)
Definition find_entry (p : V -> bool) (m : t) : option (Z * V) :=
  find (fun e => p (snd e)) m.

End Ops.
Arguments keys {V} m.
Arguments values {V} m.
Arguments get {V} k m.
Arguments has {V} k m.
Arguments set {V} k v m.
Arguments delete {V} k m.
Arguments delete_where {V} p es m.
Arguments find_value {V} p m.
Arguments find_entry {V} p m.
End JsMap.

Open Scope string_scope.
Open Scope list_scope.
Open Scope Z_scope.

(** ** JavaScript truthiness defaults ([x || d]) *)

(** [s || null] on an optional string: the empty string is falsy. *)
Definition str_or_null (o : option string) : option string :=
  match o with
  | Some s => if String.eqb s "" then None else Some s
  | None => None
  end.

(** [s || d] on an optional string *)
Definition str_or (o : option string) (d : string) : string :=
  match o with
  | Some s => if String.eqb s "" then d else s
  | None => d
  end.

(** [n || null] on an optional number: [0] is falsy. *)
Definition num_or_null (o : option Z) : option Z :=
  match o with
  | Some n => if Z.eqb n 0 then None else Some n
  | None => None
  end.

(** ** Rows of [shared/schema.ts] *)

Record User := mkUser {
  u_id : Z;
  username : string;
  password : string;
  phoneNumber : string;
  displayName : option string;
  photoURL : option string
}.

Record InsertUser := mkInsertUser {
  iu_username : string;
  iu_password : string;
  iu_phoneNumber : string;
  iu_displayName : option string;
  iu_photoURL : option string
}.

Record Board := mkBoard {
  b_id : Z;
  title : string;
  description : option string;
  color : string;
  createdBy : Z;
  createdAt : Z
}.

Record InsertBoard := mkInsertBoard {
  ib_title : string;
  ib_description : option string;
  ib_color : option string;
  ib_createdBy : Z
}.

(** [Partial<Board>]: [Some v] is a key present in the update object. *)
Record PartialBoard := mkPartialBoard {
  pb_id : option Z;
  pb_title : option string;
  pb_description : option (option string);
  pb_color : option string;
  pb_createdBy : option Z;
  pb_createdAt : option Z
}.

Record BoardMember := mkBoardMember {
  m_id : Z;
  m_boardId : Z;
  m_userId : Z;
  role : string
}.

Record InsertBoardMember := mkInsertBoardMember {
  im_boardId : Z;
  im_userId : Z;
  im_role : option string
}.

Record Todo := mkTodo {
  t_id : Z;
  t_boardId : Z;
  t_title : string;
  t_description : option string;
  dueDate : option Z;
  priority : string;
  status : string;
  assignedTo : option Z;
  t_createdBy : Z;
  t_createdAt : Z;
  updatedAt : Z
}.

Record InsertTodo := mkInsertTodo {
  it_boardId : Z;
  it_title : string;
  it_description : option string;
  it_dueDate : option Z;
  it_priority : option string;
  it_status : option string;
  it_assignedTo : option Z;
  it_createdBy : Z
}.

(** [Partial<Todo>] *)
Record PartialTodo := mkPartialTodo {
  pt_id : option Z;
  pt_boardId : option Z;
  pt_title : option string;
  pt_description : option (option string);
  pt_dueDate : option (option Z);
  pt_priority : option string;
  pt_status : option string;
  pt_assignedTo : option (option Z);
  pt_createdBy : option Z;
  pt_createdAt : option Z;
  pt_updatedAt : option Z
}.

(** [BoardWithMemberCount]: [{ ...board, todoCount, memberCount }]; the board
    part is [None] when [board] was [undefined] (spreading [undefined] adds
    no field). *)
Record BoardWithMemberCount := mkBWC {
  bwc_board : option Board;
  todoCount : nat;
  memberCount : nat
}.

(** [TodoWithAssignee]: the todo and its [assignee] field. *)
Definition TodoWithAssignee := (Todo * option User)%type.

(** [BoardWithMembers]: the board and [members], one entry per membership
    ([None] for an [undefined] user). *)
Definition BoardWithMembers := (Board * list (option User))%type.

(** ** The store *)

Record Store := mkStore {
  users : JsMap.t User;
  boards : JsMap.t Board;
  boardMembers : JsMap.t BoardMember;
  todos : JsMap.t Todo;
  currentUserId : Z;
  currentBoardId : Z;
  currentBoardMemberId : Z;
  currentTodoId : Z
}.

(** [constructor()] *)
Definition init : Store := mkStore [] [] [] [] 1 1 1 1.

Definition with_users (s : Store) u c :=
  mkStore u (boards s) (boardMembers s) (todos s) c
          (currentBoardId s) (currentBoardMemberId s) (currentTodoId s).
Definition with_boards (s : Store) b c :=
  mkStore (users s) b (boardMembers s) (todos s) (currentUserId s)
          c (currentBoardMemberId s) (currentTodoId s).
Definition with_members (s : Store) m c :=
  mkStore (users s) (boards s) m (todos s) (currentUserId s)
          (currentBoardId s) c (currentTodoId s).
Definition with_todos (s : Store) t c :=
  mkStore (users s) (boards s) (boardMembers s) t (currentUserId s)
          (currentBoardId s) (currentBoardMemberId s) c.

(** ** The methods of [MemStorage] *)
Section Methods.
Variable s : Store.

(** [getUser(id)] *)
Definition getUser (id : Z) : option User := JsMap.get id (users s).

(** [getUserByUsername(username)] *)
Definition getUserByUsername (n : string) : option User :=
  JsMap.find_value (fun u => String.eqb (username u) n) (users s).

(** [getUserByPhoneNumber(phoneNumber)] *)
Definition getUserByPhoneNumber (p : string) : option User :=
  JsMap.find_value (fun u => String.eqb (phoneNumber u) p) (users s).

(** [createUser(insertUser)] *)
Definition createUser (iu : InsertUser) : Store * User :=
  let id := currentUserId s in
  let user := mkUser id (iu_username iu) (iu_password iu) (iu_phoneNumber iu)
                     (str_or_null (iu_displayName iu))
                     (str_or_null (iu_photoURL iu)) in
  (with_users s (JsMap.set id user (users s)) (id + 1), user).

(** [Array.from(this.todos.values()).filter(t => t.boardId === id).length] *)
Definition count_todos (id : Z) : nat :=
  List.length (filter (fun t => Z.eqb (t_boardId t) id) (JsMap.values (todos s))).

(** the same count over [this.boardMembers] *)
Definition count_members (id : Z) : nat :=
  List.length (filter (fun m => Z.eqb (m_boardId m) id) (JsMap.values (boardMembers s))).

(** [getBoards()] *)
Definition getBoards : list BoardWithMemberCount :=
  map (fun b => mkBWC (Some b) (count_todos (b_id b)) (count_members (b_id b)))
      (JsMap.values (boards s)).

(** [Set<number>.add]: appends a value not yet in the set. *)
Definition set_add (x : Z) (xs : list Z) : list Z :=
  if existsb (Z.eqb x) xs then xs else xs ++ [x].

(** [getBoardsByUser(userId)] *)
Definition getBoardsByUser (userId : Z) : list BoardWithMemberCount :=
  let ids0 := fold_left (fun acc b => set_add (b_id b) acc)
                (filter (fun b => Z.eqb (createdBy b) userId) (JsMap.values (boards s)))
                [] in
  let ids := fold_left (fun acc m => set_add (m_boardId m) acc)
                (filter (fun m => Z.eqb (m_userId m) userId)
                        (JsMap.values (boardMembers s)))
                ids0 in
  map (fun boardId => mkBWC (JsMap.get boardId (boards s))
                            (count_todos boardId) (count_members boardId)) ids.

(** [getBoard(id)] *)
Definition getBoard (id : Z) : option Board := JsMap.get id (boards s).

(** [getBoardWithMembers(id)] *)
Definition getBoardWithMembers (id : Z) : option BoardWithMembers :=
  match JsMap.get id (boards s) with
  | None => None
  | Some b =>
      let memberIds := map m_userId (filter (fun m => Z.eqb (m_boardId m) id)
                                            (JsMap.values (boardMembers s))) in
      Some (b, map (fun uid => JsMap.get uid (users s)) memberIds)
  end.

(** [getBoardMembers(boardId)] *)
Definition getBoardMembers (boardId : Z) : list BoardMember :=
  filter (fun m => Z.eqb (m_boardId m) boardId) (JsMap.values (boardMembers s)).

(** [addBoardMember(insertMember)] *)
Definition addBoardMember (im : InsertBoardMember) : Store * BoardMember :=
  match JsMap.find_value (fun m => Z.eqb (m_boardId m) (im_boardId im)
                                   && Z.eqb (m_userId m) (im_userId im))
                         (boardMembers s) with
  | Some existing => (s, existing)
  | None =>
      let id := currentBoardMemberId s in
      let member := mkBoardMember id (im_boardId im) (im_userId im)
                                  (str_or (im_role im) "editor"%string) in
      (with_members s (JsMap.set id member (boardMembers s)) (id + 1), member)
  end.

(** [removeBoardMember(boardId, userId)]: deletes the first match and breaks. *)
Definition removeBoardMember (boardId userId : Z) : Store * bool :=
  match JsMap.find_entry (fun m => Z.eqb (m_boardId m) boardId
                                   && Z.eqb (m_userId m) userId)
                         (boardMembers s) with
  | Some (memberId, _) =>
      (with_members s (JsMap.delete memberId (boardMembers s))
                    (currentBoardMemberId s), true)
  | None => (s, false)
  end.

(** [updateBoardMemberRole(boardId, userId, role)] *)
Definition updateBoardMemberRole (boardId userId : Z) (r : string)
  : Store * option BoardMember :=
  match JsMap.find_entry (fun m => Z.eqb (m_boardId m) boardId
                                   && Z.eqb (m_userId m) userId)
                         (boardMembers s) with
  | Some (memberId, member) =>
      let updated := mkBoardMember (m_id member) (m_boardId member)
                                   (m_userId member) r in
      (with_members s (JsMap.set memberId updated (boardMembers s))
                    (currentBoardMemberId s), Some updated)
  | None => (s, None)
  end.

(** [getTodos(boardId)]: [assignee] is attached when [assignedTo] is truthy. *)
Definition getTodos (boardId : Z) : list TodoWithAssignee :=
  map (fun t => match num_or_null (assignedTo t) with
                | Some a => (t, JsMap.get a (users s))
                | None => (t, None)
                end)
      (filter (fun t => Z.eqb (t_boardId t) boardId) (JsMap.values (todos s))).

(** [getTodo(id)] *)
Definition getTodo (id : Z) : option Todo := JsMap.get id (todos s).

(** [createTodo(insertTodo)] at clock reading [now] *)
Definition createTodo (now : Z) (it : InsertTodo) : Store * Todo :=
  let id := currentTodoId s in
  let todo := mkTodo id (it_boardId it) (it_title it)
                     (str_or_null (it_description it)) (it_dueDate it)
                     (str_or (it_priority it) "medium"%string)
                     (str_or (it_status it) "todo"%string)
                     (num_or_null (it_assignedTo it)) (it_createdBy it) now now in
  (with_todos s (JsMap.set id todo (todos s)) (id + 1), todo).

(** [deleteTodo(id)] *)
Definition deleteTodo (id : Z) : Store * bool :=
  (with_todos s (JsMap.delete id (todos s)) (currentTodoId s),
   JsMap.has id (todos s)).

End Methods.

(** [{ ...x, ...updates }]: a key present in the update overrides. *)
Definition upd {A} (o : option A) (x : A) : A :=
  match o with Some y => y | None => x end.

Definition merge_board (b : Board) (p : PartialBoard) : Board :=
  mkBoard (upd (pb_id p) (b_id b)) (upd (pb_title p) (title b))
          (upd (pb_description p) (description b)) (upd (pb_color p) (color b))
          (upd (pb_createdBy p) (createdBy b)) (upd (pb_createdAt p) (createdAt b)).

(** [{ ...todo, ...updates, updatedAt: now }] *)
Definition merge_todo (t : Todo) (p : PartialTodo) (now : Z) : Todo :=
  mkTodo (upd (pt_id p) (t_id t)) (upd (pt_boardId p) (t_boardId t))
         (upd (pt_title p) (t_title t)) (upd (pt_description p) (t_description t))
         (upd (pt_dueDate p) (dueDate t)) (upd (pt_priority p) (priority t))
         (upd (pt_status p) (status t)) (upd (pt_assignedTo p) (assignedTo t))
         (upd (pt_createdBy p) (t_createdBy t)) (upd (pt_createdAt p) (t_createdAt t))
         now.

(** [createBoard(insertBoard)] at clock reading [now]: stores the board, then
    [await this.addBoardMember({ boardId: id, userId: createdBy, role: 'admin' })];
    [addBoardMember] runs to completion before the [await] yields. *)
Definition createBoard (now : Z) (s : Store) (ib : InsertBoard) : Store * Board :=
  let id := currentBoardId s in
  let board := mkBoard id (ib_title ib) (str_or_null (ib_description ib))
                       (str_or (ib_color ib) "primary"%string) (ib_createdBy ib) now in
  let s1 := with_boards s (JsMap.set id board (boards s)) (id + 1) in
  let s2 := fst (addBoardMember s1 (mkInsertBoardMember id (ib_createdBy ib)
                                                         (Some "admin"%string))) in
  (s2, board).

(** [updateBoard(id, updates)] *)
Definition updateBoard (s : Store) (id : Z) (p : PartialBoard)
  : Store * option Board :=
  match JsMap.get id (boards s) with
  | None => (s, None)
  | Some b =>
      let b' := merge_board b p in
      (with_boards s (JsMap.set id b' (boards s)) (currentBoardId s), Some b')
  end.

(** [deleteBoard(id)] *)
Definition deleteBoard (s : Store) (id : Z) : Store * bool :=
  let deleted := JsMap.has id (boards s) in
  let s1 := with_boards s (JsMap.delete id (boards s)) (currentBoardId s) in
  if deleted then
    let ms := JsMap.delete_where (fun m => Z.eqb (m_boardId m) id)
                                 (boardMembers s1) (boardMembers s1) in
    let s2 := with_members s1 ms (currentBoardMemberId s1) in
    let ts := JsMap.delete_where (fun t => Z.eqb (t_boardId t) id)
                                 (todos s2) (todos s2) in
    (with_todos s2 ts (currentTodoId s2), true)
  else (s1, false).

(** [updateTodo(id, updates)] at clock reading [now] *)
Definition updateTodo (now : Z) (s : Store) (id : Z) (p : PartialTodo)
  : Store * option Todo :=
  match JsMap.get id (todos s) with
  | None => (s, None)
  | Some t =>
      let t' := merge_todo t p now in
      (with_todos s (JsMap.set id t' (todos s)) (currentTodoId s), Some t')
  end.

(** ** One call of the [IStorage] interface *)
Inductive Op :=
| GetUser (id : Z)
| GetUserByUsername (n : string)
| GetUserByPhoneNumber (p : string)
| CreateUser (iu : InsertUser)
| GetBoards
| GetBoardsByUser (userId : Z)
| GetBoard (id : Z)
| GetBoardWithMembers (id : Z)
| CreateBoard (ib : InsertBoard)
| UpdateBoard (id : Z) (p : PartialBoard)
| DeleteBoard (id : Z)
| GetBoardMembers (boardId : Z)
| AddBoardMember (im : InsertBoardMember)
| RemoveBoardMember (boardId userId : Z)
| UpdateBoardMemberRole (boardId userId : Z) (r : string)
| GetTodos (boardId : Z)
| GetTodo (id : Z)
| CreateTodo (it : InsertTodo)
| UpdateTodo (id : Z) (p : PartialTodo)
| DeleteTodo (id : Z).

(** The value a call resolves to. *)
Inductive Ret :=
| RUser (u : option User)
| RNewUser (u : User)
| RBoardList (l : list BoardWithMemberCount)
| RBoard (b : option Board)
| RBoardWithMembers (b : option BoardWithMembers)
| RNewBoard (b : Board)
| RBool (b : bool)
| RMembers (l : list BoardMember)
| RMember (m : BoardMember)
| RMemberOpt (m : option BoardMember)
| RTodos (l : list TodoWithAssignee)
| RTodo (t : option Todo)
| RNewTodo (t : Todo).

(** [exec now s o]: run call [o] on store [s] with clock reading [now]. *)
Definition exec (now : Z) (s : Store) (o : Op) : Store * Ret :=
  match o with
  | GetUser id => (s, RUser (getUser s id))
  | GetUserByUsername n => (s, RUser (getUserByUsername s n))
  | GetUserByPhoneNumber p => (s, RUser (getUserByPhoneNumber s p))
  | CreateUser iu => let (s', u) := createUser s iu in (s', RNewUser u)
  | GetBoards => (s, RBoardList (getBoards s))
  | GetBoardsByUser uid => (s, RBoardList (getBoardsByUser s uid))
  | GetBoard id => (s, RBoard (getBoard s id))
  | GetBoardWithMembers id => (s, RBoardWithMembers (getBoardWithMembers s id))
  | CreateBoard ib => let (s', b) := createBoard now s ib in (s', RNewBoard b)
  | UpdateBoard id p => let (s', b) := updateBoard s id p in (s', RBoard b)
  | DeleteBoard id => let (s', r) := deleteBoard s id in (s', RBool r)
  | GetBoardMembers bid => (s, RMembers (getBoardMembers s bid))
  | AddBoardMember im => let (s', m) := addBoardMember s im in (s', RMember m)
  | RemoveBoardMember bid uid =>
      let (s', r) := removeBoardMember s bid uid in (s', RBool r)
  | UpdateBoardMemberRole bid uid r =>
      let (s', m) := updateBoardMemberRole s bid uid r in (s', RMemberOpt m)
  | GetTodos bid => (s, RTodos (getTodos s bid))
  | GetTodo id => (s, RTodo (getTodo s id))
  | CreateTodo it => let (s', t) := createTodo s now it in (s', RNewTodo t)
  | UpdateTodo id p => let (s', t) := updateTodo now s id p in (s', RTodo t)
  | DeleteTodo id => let (s', r) := deleteTodo s id in (s', RBool r)
  end.

(** Stores reachable from [new MemStorage()] by any sequence of calls. *)
Inductive reachable : Store -> Prop :=
| reach_init : reachable init
| reach_step now s o : reachable s -> reachable (fst (exec now s o)).

(** Run a sequence of timed calls. *)
Fixpoint run (s : Store) (ops : list (Z * Op)) : Store :=
  match ops with
  | [] => s
  | (now, o) :: ops' => run (fst (exec now s o)) ops'
  end.

(** ** Entity kinds and the handles they use *)
Inductive kind := KUser | KBoard | KMember | KTodo.

Definition keys_of (k : kind) (s : Store) : list Z :=
  match k with
  | KUser => JsMap.keys (users s)
  | KBoard => JsMap.keys (boards s)
  | KMember => JsMap.keys (boardMembers s)
  | KTodo => JsMap.keys (todos s)
  end.

Definition counter_of (k : kind) (s : Store) : Z :=
  match k with
  | KUser => currentUserId s
  | KBoard => currentBoardId s
  | KMember => currentBoardMemberId s
  | KTodo => currentTodoId s
  end.

(** Handles of kind [k] that a step from [s] to [s'] put in the store. *)
Definition new_keys (k : kind) (s s' : Store) : list Z :=
  filter (fun x => negb (existsb (Z.eqb x) (keys_of k s))) (keys_of k s').

(** Handles of kind [k] assigned along a run, in order. *)
Fixpoint assigned (k : kind) (s : Store) (ops : list (Z * Op)) : list Z :=
  match ops with
  | [] => []
  | (now, o) :: ops' =>
      let s' := fst (exec now s o) in new_keys k s s' ++ assigned k s' ops'
  end.

(** Memberships of the pair (board [b], account [a]). *)
Definition members_for (b a : Z) (s : Store) : list BoardMember :=
  filter (fun m => Z.eqb (m_boardId m) b && Z.eqb (m_userId m) a)
         (JsMap.values (boardMembers s)).

Definition is_role (r : string) : bool :=
  String.eqb r "viewer" || String.eqb r "editor" || String.eqb r "admin".

(** ** Sample stores *)
Definition alice : InsertUser :=
  mkInsertUser "alice" "hash" "+15550001" None None.
Definition launch_plan (owner : Z) : InsertBoard :=
  mkInsertBoard "Launch Plan" None None owner.
Definition write_spec (board owner : Z) : InsertTodo :=
  mkInsertTodo board "Write spec" None None None None None owner.
Definition no_todo_update : PartialTodo :=
  mkPartialTodo None None None None None None None None None None None.

Definition admin_bootstrap_store : Store :=
  fst (addBoardMember init (mkInsertBoardMember 1 1 (Some "viewer"))).

Definition same_tick_store : Store := fst (createTodo init 5 (write_spec 1 1)).

Definition no_board_update : PartialBoard :=
  mkPartialBoard None None None None None None.

Definition dangling_store : Store :=
  fst (addBoardMember init (mkInsertBoardMember 7 1 (Some "viewer"))).

Definition scenario : Store :=
  run init [(0, CreateUser alice); (10, CreateBoard (launch_plan 1));
            (20, CreateTodo (write_spec 1 1));
            (30, AddBoardMember (mkInsertBoardMember 1 7 (Some "viewer")))].

(** ** Invariants of reachable stores *)

(** The membership belongs to the pair (board [b], account [a]). *)
Definition pair_of (b a : Z) (m : BoardMember) : bool :=
  Z.eqb (m_boardId m) b && Z.eqb (m_userId m) a.


(** At most one membership per (board, account) pair. *)
Definition at_most_one (s : Store) : Prop :=
  forall b a, (List.length (members_for b a s) <= 1)%nat.

(** Map keys are unique and below their kind's counter. *)
Definition keys_ok (k : kind) (s : Store) : Prop :=
  NoDup (keys_of k s) /\ Forall (fun x => x < counter_of k s) (keys_of k s).

Definition inv (s : Store) : Prop :=
  (forall k, keys_ok k s) /\ at_most_one s.

(** ** Not-found conditions and sentinel results *)

(** The entity a call targets does not exist (only calls that target one). *)
Definition not_found (s : Store) (o : Op) : Prop :=
  match o with
  | GetUser id => ~ In id (JsMap.keys (users s))
  | GetUserByUsername n => forall u, In u (JsMap.values (users s)) -> username u <> n
  | GetUserByPhoneNumber p =>
      forall u, In u (JsMap.values (users s)) -> phoneNumber u <> p
  | GetBoard id | GetBoardWithMembers id | UpdateBoard id _ | DeleteBoard id =>
      ~ In id (JsMap.keys (boards s))
  | RemoveBoardMember b a | UpdateBoardMemberRole b a _ => members_for b a s = []
  | GetTodo id | UpdateTodo id _ | DeleteTodo id => ~ In id (JsMap.keys (todos s))
  | _ => False
  end.

(** [undefined] or [false] *)
Definition is_sentinel (r : Ret) : bool :=
  match r with
  | RUser None | RBoard None | RBoardWithMembers None | RBool false
  | RMemberOpt None | RTodo None => true
  | _ => false
  end.

(** ** Board handles listed by [getBoardsByUser]
    The [Set<number>] [boardIds] that [getBoardsByUser(userId)] builds before
    mapping each handle to a [BoardWithMemberCount]. *)
Definition boardIdsByUser (s : Store) (userId : Z) : list Z :=
  let ids0 := fold_left (fun acc b => set_add (b_id b) acc)
                (filter (fun b => Z.eqb (createdBy b) userId) (JsMap.values (boards s)))
                [] in
  fold_left (fun acc m => set_add (m_boardId m) acc)
            (filter (fun m => Z.eqb (m_userId m) userId) (JsMap.values (boardMembers s)))
            ids0.

(** ** Authentication routes of [registerRoutes] *)











(** * Facts about the [Map] model *)
Module MapFacts.
Section Facts.
Context {V : Type}.
Implicit Types (m es : JsMap.t V) (k : Z) (v : V).

Lemma has_iff k m : JsMap.has k m = true <-> In k (JsMap.keys m).
Proof.
  unfold JsMap.has, JsMap.keys. rewrite existsb_exists. split.
  - intros [[k' v'] [Hin Heq]]. apply Z.eqb_eq in Heq. simpl in Heq. subst.
    apply (in_map fst _ _ Hin).
  - intros Hin. apply in_map_iff in Hin as [[k' v'] [Heq Hin]].
    exists (k', v'). simpl in *. subst. split; [exact Hin | apply Z.eqb_refl].
Qed.

Lemma has_false_iff k m : JsMap.has k m = false <-> ~ In k (JsMap.keys m).
Proof.
  rewrite <- has_iff. destruct (JsMap.has k m); split; congruence.
Qed.

Lemma get_None_iff k m : JsMap.get k m = None <-> ~ In k (JsMap.keys m).
Proof.
  induction m as [|[k' v'] m IH]; simpl.
  - tauto.
  - destruct (Z.eqb_spec k' k).
    + subst. split; [discriminate | tauto].
    + rewrite IH. intuition.
Qed.

Lemma get_Some_In k v m : JsMap.get k m = Some v -> In (k, v) m.
Proof.
  induction m as [|[k' v'] m IH]; simpl; [discriminate|].
  destruct (Z.eqb_spec k' k).
  - intros H. inversion H. subst. left. reflexivity.
  - intros H. right. auto.
Qed.

Lemma In_keys k v m : In (k, v) m -> In k (JsMap.keys m).
Proof. intros H. apply (in_map fst _ _ H). Qed.

Lemma NoDup_In_unique k v v' m :
  NoDup (JsMap.keys m) -> In (k, v) m -> In (k, v') m -> v = v'.
Proof.
  induction m as [|[k0 v0] m IH]; simpl; [tauto|].
  intros Hnd H1 H2. inversion Hnd as [|? ? Hnotin Hnd']. subst.
  destruct H1 as [H1|H1]; destruct H2 as [H2|H2].
  - inversion H1; inversion H2; subst; reflexivity.
  - inversion H1; subst. exfalso. apply Hnotin. apply (In_keys _ _ _ H2).
  - inversion H2; subst. exfalso. apply Hnotin. apply (In_keys _ _ _ H1).
  - auto.
Qed.

Lemma get_In_iff k v m :
  NoDup (JsMap.keys m) -> JsMap.get k m = Some v <-> In (k, v) m.
Proof.
  intros Hnd. split; [apply get_Some_In|].
  intros Hin. destruct (JsMap.get k m) as [v'|] eqn:E.
  - f_equal. apply (NoDup_In_unique k v' v m Hnd); [apply get_Some_In; exact E | exact Hin].
  - apply get_None_iff in E. exfalso. apply E. apply (In_keys _ _ _ Hin).
Qed.

Lemma keys_set_in k v m :
  In k (JsMap.keys m) -> JsMap.keys (JsMap.set k v m) = JsMap.keys m.
Proof.
  intros Hin. unfold JsMap.set. apply has_iff in Hin. rewrite Hin.
  unfold JsMap.keys. rewrite map_map. apply map_ext. intros [k' v']. simpl.
  destruct (Z.eqb_spec k' k); simpl; congruence.
Qed.

Lemma keys_set_notin k v m :
  ~ In k (JsMap.keys m) -> JsMap.keys (JsMap.set k v m) = JsMap.keys m ++ [k].
Proof.
  intros Hn. unfold JsMap.set. apply has_false_iff in Hn. rewrite Hn.
  unfold JsMap.keys. rewrite map_app. reflexivity.
Qed.

Lemma values_set_notin k v m :
  ~ In k (JsMap.keys m) -> JsMap.values (JsMap.set k v m) = JsMap.values m ++ [v].
Proof.
  intros Hn. unfold JsMap.set. apply has_false_iff in Hn. rewrite Hn.
  unfold JsMap.values. rewrite map_app. reflexivity.
Qed.

Lemma get_set_same k v m : JsMap.get k (JsMap.set k v m) = Some v.
Proof.
  unfold JsMap.set. destruct (JsMap.has k m) eqn:E.
  - apply has_iff in E. induction m as [|[k' v'] m IH]; simpl in *; [tauto|].
    destruct (Z.eqb_spec k' k); simpl.
    + rewrite Z.eqb_refl. reflexivity.
    + destruct (Z.eqb_spec k' k); [congruence|]. apply IH. intuition.
  - induction m as [|[k' v'] m IH]; simpl.
    + rewrite Z.eqb_refl. reflexivity.
    + unfold JsMap.has in E. simpl in E. apply orb_false_iff in E as [E1 E2].
      rewrite E1. apply IH. exact E2.
Qed.

Lemma get_set_other k k' v m :
  k' <> k -> JsMap.get k' (JsMap.set k v m) = JsMap.get k' m.
Proof.
  intros Hne. unfold JsMap.set. destruct (JsMap.has k m).
  - induction m as [|[k0 v0] m IH]; simpl; [reflexivity|].
    destruct (Z.eqb_spec k0 k); simpl.
    + subst. destruct (Z.eqb_spec k k'); [congruence|]. exact IH.
    + rewrite IH. reflexivity.
  - induction m as [|[k0 v0] m IH]; simpl.
    + destruct (Z.eqb_spec k k'); [congruence|reflexivity].
    + rewrite IH. reflexivity.
Qed.

Lemma keys_filter (f : Z -> bool) m :
  JsMap.keys (filter (fun e => f (fst e)) m) = filter f (JsMap.keys m).
Proof.
  induction m as [|[k v] m IH]; simpl; [reflexivity|].
  destruct (f k); simpl; rewrite IH; reflexivity.
Qed.

Lemma keys_delete k m :
  JsMap.keys (JsMap.delete k m) = filter (fun x => negb (Z.eqb x k)) (JsMap.keys m).
Proof. apply (keys_filter (fun x => negb (Z.eqb x k))). Qed.

Lemma get_delete_other k k' m :
  k' <> k -> JsMap.get k' (JsMap.delete k m) = JsMap.get k' m.
Proof.
  intros Hne. induction m as [|[k0 v0] m IH]; simpl; [reflexivity|].
  destruct (Z.eqb_spec k0 k); simpl.
  - subst. destruct (Z.eqb_spec k k'); [congruence|]. exact IH.
  - destruct (Z.eqb k0 k'); [reflexivity | exact IH].
Qed.

Lemma get_delete_same k m : JsMap.get k (JsMap.delete k m) = None.
Proof.
  induction m as [|[k0 v0] m IH]; simpl; [reflexivity|].
  destruct (Z.eqb_spec k0 k); simpl; [exact IH|].
  destruct (Z.eqb_spec k0 k); [congruence | exact IH].
Qed.

Lemma filter_filter {A} (f g : A -> bool) (l : list A) :
  filter f (filter g l) = filter (fun x => g x && f x) l.
Proof.
  induction l as [|x l IH]; simpl; [reflexivity|].
  destruct (g x); simpl; [destruct (f x)|]; simpl; rewrite IH; reflexivity.
Qed.

Lemma filter_ext_In {A} (f g : A -> bool) (l : list A) :
  (forall x, In x l -> f x = g x) -> filter f l = filter g l.
Proof.
  induction l as [|x l IH]; simpl; intros H; [reflexivity|].
  rewrite (H x (or_introl eq_refl)), IH by auto. reflexivity.
Qed.

(** The deletion loop is a filter of the map. *)
Lemma delete_where_filter (p : V -> bool) es m :
  JsMap.delete_where p es m =
  filter (fun e => negb (existsb (fun e' => Z.eqb (fst e') (fst e) && p (snd e')) es)) m.
Proof.
  revert m. induction es as [|[k v] es IH]; intros m; simpl.
  - symmetry. induction m as [|e m IHm]; simpl; [reflexivity|]. rewrite IHm. reflexivity.
  - rewrite IH. destruct (p v) eqn:Hp.
    + unfold JsMap.delete. rewrite filter_filter. apply filter_ext_In.
      intros [k' v'] _. simpl.
      destruct (Z.eqb_spec k' k), (Z.eqb_spec k k'); subst; simpl; try congruence;
        destruct existsb; reflexivity.
    + apply filter_ext_In. intros [k' v'] _. simpl. rewrite andb_false_r. reflexivity.
Qed.

Lemma NoDup_keys_filter (f : Z * V -> bool) m :
  NoDup (JsMap.keys m) -> NoDup (JsMap.keys (filter f m)).
Proof.
  induction m as [|[k v] m IH]; simpl; intros Hnd; [constructor|].
  inversion Hnd as [|? ? Hn Hnd']; subst.
  destruct (f (k, v)); simpl; [|auto].
  constructor; [|auto]. intros Hin. apply Hn.
  unfold JsMap.keys in Hin. apply in_map_iff in Hin as [[k' v'] [Hk Hin]].
  simpl in Hk; subst. apply filter_In in Hin as [Hin _]. apply (In_keys _ _ _ Hin).
Qed.

(** After the deletion loop over its own entries no entry satisfies [p]. *)
Lemma delete_where_self_In (p : V -> bool) m e :
  In e (JsMap.delete_where p m m) -> p (snd e) = false.
Proof.
  rewrite delete_where_filter. intros Hin. apply filter_In in Hin as [Hin Hf].
  destruct (p (snd e)) eqn:Hp; [|reflexivity].
  apply negb_true_iff in Hf. exfalso.
  assert (existsb (fun e' => Z.eqb (fst e') (fst e) && p (snd e')) m = true) as Ht.
  { apply existsb_exists. exists e. rewrite Z.eqb_refl, Hp. auto. }
  congruence.
Qed.

(** ... and with unique keys it keeps every entry not satisfying [p]. *)
Lemma delete_where_self_get (p : V -> bool) m k v :
  NoDup (JsMap.keys m) -> p v = false ->
  (JsMap.get k (JsMap.delete_where p m m) = Some v <-> JsMap.get k m = Some v).
Proof.
  intros Hnd Hp. rewrite delete_where_filter.
  rewrite (get_In_iff k v _ (NoDup_keys_filter _ m Hnd)), (get_In_iff k v m Hnd).
  rewrite filter_In. split; [tauto|]. intros Hin. split; [exact Hin|].
  simpl. apply negb_true_iff. apply not_true_iff_false. intros Hex.
  apply existsb_exists in Hex as [[k' v'] [Hin' Hc]]. simpl in Hc.
  apply andb_true_iff in Hc as [Hk Hp']. apply Z.eqb_eq in Hk. subst k'.
  rewrite (NoDup_In_unique k v' v m Hnd Hin' Hin) in Hp'. congruence.
Qed.

Lemma filter_all_false {A} (f : A -> bool) (l : list A) :
  (forall x, In x l -> f x = false) -> filter f l = [].
Proof.
  induction l as [|x l IH]; simpl; intros H; [reflexivity|].
  rewrite (H x (or_introl eq_refl)). apply IH. auto.
Qed.

End Facts.
End MapFacts.

Lemma store_eta (s : Store) :
  mkStore (users s) (boards s) (boardMembers s) (todos s) (currentUserId s)
          (currentBoardId s) (currentBoardMemberId s) (currentTodoId s) = s.
Proof. destruct s; reflexivity. Qed.

Lemma delete_absent {V} (k : Z) (m : JsMap.t V) :
  ~ In k (JsMap.keys m) -> JsMap.delete k m = m.
Proof.
  induction m as [|[k' v] m IH]; simpl; intros Hn; [reflexivity|].
  destruct (Z.eqb_spec k' k); [tauto|]. simpl. rewrite IH; tauto.
Qed.

(** Sample run: the scenario of the spec's testable properties. *)
Example scenario_members :
  getBoardMembers scenario 1 =
    [mkBoardMember 1 1 1 "admin"; mkBoardMember 2 1 7 "viewer"].
Proof. reflexivity. Qed.

Example scenario_todos :
  List.map (fun e => (t_id (fst e), status (fst e), snd e)) (getTodos scenario 1)
  = [(1, "todo", None)].
Proof. reflexivity. Qed.

Example scenario_delete :
  let (s', r) := deleteBoard scenario 1 in
  r = true /\ getTodos s' 1 = [] /\ getBoardMembers s' 1 = [] /\ getBoard s' 1 = None.
Proof. vm_compute. auto. Qed.

(** * Claims *)

(** ** C1: the cascade of [deleteBoard] *)

(** C1. [deleteBoard(B)] returns false exactly when board [B] is absent, and
    then changes nothing; when it returns true, afterwards [getBoard(B)] is
    absent and [getTodos(B)] and [getBoardMembers(B)] are empty: every
    membership and every todo whose [boardId] is [B] was deleted. *)
Theorem deleteBoard_cascade (s : Store) (B : Z) :
  let (s', r) := deleteBoard s B in
  (r = false <-> getBoard s B = None) /\
  if r then getBoard s' B = None /\ getTodos s' B = [] /\ getBoardMembers s' B = []
  else s' = s.
Proof.
  unfold deleteBoard, getBoard, getTodos, getBoardMembers.
  destruct (JsMap.has B (boards s)) eqn:Hhas.
  - apply MapFacts.has_iff in Hhas. simpl. split.
    + split; [discriminate|]. intros Hn. apply MapFacts.get_None_iff in Hn. tauto.
    + split; [apply MapFacts.get_delete_same|]. split.
      * rewrite MapFacts.filter_all_false; [reflexivity|].
        intros t Hin. unfold JsMap.values in Hin. apply in_map_iff in Hin as [e [He Hin]].
        subst t. apply (MapFacts.delete_where_self_In _ _ _ Hin).
      * apply MapFacts.filter_all_false.
        intros m Hin. unfold JsMap.values in Hin. apply in_map_iff in Hin as [e [He Hin]].
        subst m. apply (MapFacts.delete_where_self_In _ _ _ Hin).
  - apply MapFacts.has_false_iff in Hhas. split.
    + split; [intros _; apply MapFacts.get_None_iff; exact Hhas | reflexivity].
    + unfold with_boards. rewrite (delete_absent _ _ Hhas). apply store_eta.
Qed.

(** ** C10: what [deleteBoard] leaves alone *)

(** C10. On a store whose membership and todo maps have unique keys (as a
    JavaScript [Map] does), [deleteBoard(B)] leaves the accounts, every board
    other than [B], every membership and every todo whose [boardId] differs
    from [B], and the handle counters unchanged. *)
Theorem deleteBoard_frame (s : Store) (B : Z)
  (Hm : NoDup (JsMap.keys (boardMembers s)))
  (Ht : NoDup (JsMap.keys (todos s))) :
  let s' := fst (deleteBoard s B) in
  users s' = users s /\
  (forall k, k <> B -> JsMap.get k (boards s') = JsMap.get k (boards s)) /\
  (forall k m, m_boardId m <> B ->
     (JsMap.get k (boardMembers s') = Some m <-> JsMap.get k (boardMembers s) = Some m)) /\
  (forall k t, t_boardId t <> B ->
     (JsMap.get k (todos s') = Some t <-> JsMap.get k (todos s) = Some t)) /\
  (forall k, counter_of k s' = counter_of k s).
Proof.
  unfold deleteBoard. destruct (JsMap.has B (boards s)); simpl.
  - split; [reflexivity|]. split.
    { intros k Hk. apply MapFacts.get_delete_other. exact Hk. }
    split.
    { intros k m Hb. apply MapFacts.delete_where_self_get; [exact Hm|].
      apply Z.eqb_neq. exact Hb. }
    split.
    { intros k t Hb. apply MapFacts.delete_where_self_get; [exact Ht|].
      apply Z.eqb_neq. exact Hb. }
    intros []; reflexivity.
  - split; [reflexivity|]. split.
    { intros k Hk. apply MapFacts.get_delete_other. exact Hk. }
    split; [tauto|]. split; [tauto|]. intros []; reflexivity.
Qed.

(** Witness: deleting board 1 of the sample store. *)
Lemma deleteBoard_frame_witness :
  NoDup (JsMap.keys (boardMembers scenario)) /\ NoDup (JsMap.keys (todos scenario)) /\
  users (fst (deleteBoard scenario 1)) = users scenario.
Proof.
  assert (Hm : NoDup (JsMap.keys (boardMembers scenario))).
  { vm_compute. repeat constructor; simpl; lia. }
  assert (Ht : NoDup (JsMap.keys (todos scenario))).
  { vm_compute. repeat constructor; simpl; lia. }
  split; [exact Hm|]. split; [exact Ht|].
  apply (deleteBoard_frame scenario 1 Hm Ht).
Defined.

(** * Invariant of reachable stores *)
Module Invariant.

(** How one call changes the keys of a map and its counter. *)
Definition shrinks (l l' : list Z) (c c' : Z) : Prop :=
  (NoDup l -> NoDup l') /\ incl l' l /\ c' = c.
Definition grows (l l' : list Z) (c c' : Z) : Prop :=
  l' = l ++ [c] /\ c' = c + 1.
Definition keys_step (k : kind) (s s' : Store) : Prop :=
  shrinks (keys_of k s) (keys_of k s') (counter_of k s) (counter_of k s') \/
  grows (keys_of k s) (keys_of k s') (counter_of k s) (counter_of k s').

Lemma shrinks_refl l c : shrinks l l c c.
Proof. split; [auto|]. split; [apply incl_refl | reflexivity]. Qed.

Lemma shrinks_filter {V} (f : Z * V -> bool) (m : JsMap.t V) c :
  shrinks (JsMap.keys m) (JsMap.keys (filter f m)) c c.
Proof.
  split; [apply MapFacts.NoDup_keys_filter|]. split; [|reflexivity].
  intros x Hx. unfold JsMap.keys in *. apply in_map_iff in Hx as [e [He Hin]].
  apply filter_In in Hin as [Hin _]. subst x. apply in_map. exact Hin.
Qed.

Lemma shrinks_delete {V} k (m : JsMap.t V) c :
  shrinks (JsMap.keys m) (JsMap.keys (JsMap.delete k m)) c c.
Proof. apply shrinks_filter. Qed.

Lemma shrinks_delete_where {V} (p : V -> bool) (m : JsMap.t V) c :
  shrinks (JsMap.keys m) (JsMap.keys (JsMap.delete_where p m m)) c c.
Proof. rewrite MapFacts.delete_where_filter. apply shrinks_filter. Qed.

Lemma shrinks_set_in {V} k (v : V) m c :
  In k (JsMap.keys m) -> shrinks (JsMap.keys m) (JsMap.keys (JsMap.set k v m)) c c.
Proof. intros H. rewrite (MapFacts.keys_set_in k v m H). apply shrinks_refl. Qed.

Lemma grows_set {V} c (v : V) m :
  ~ In c (JsMap.keys m) -> grows (JsMap.keys m) (JsMap.keys (JsMap.set c v m)) c (c + 1).
Proof. intros H. split; [apply MapFacts.keys_set_notin; exact H | reflexivity]. Qed.

Lemma fresh_counter k s : keys_ok k s -> ~ In (counter_of k s) (keys_of k s).
Proof.
  intros [_ Hlt] Hin. rewrite Forall_forall in Hlt. specialize (Hlt _ Hin). lia.
Qed.

Lemma find_entry_In {V} (p : V -> bool) m e :
  JsMap.find_entry p m = Some e -> In e m /\ p (snd e) = true.
Proof. unfold JsMap.find_entry. intros H. apply find_some in H. exact H. Qed.

Lemma find_value_None {V} (p : V -> bool) m :
  JsMap.find_value p m = None -> forall v, In v (JsMap.values m) -> p v = false.
Proof.
  unfold JsMap.find_value. destruct (find (fun e => p (snd e)) m) as [[k v]|] eqn:E;
    [discriminate|]. intros _ v Hv. unfold JsMap.values in Hv.
  apply in_map_iff in Hv as [e [He Hin]]. subst v.
  apply (find_none _ _ E e Hin).
Qed.

Lemma find_value_Some {V} (p : V -> bool) m v :
  JsMap.find_value p m = Some v -> In v (JsMap.values m) /\ p v = true.
Proof.
  unfold JsMap.find_value. destruct (find (fun e => p (snd e)) m) as [[k v']|] eqn:E;
    [|discriminate]. intros H. inversion H; subst.
  apply find_some in E as [Hin Hp]. split; [|exact Hp].
  apply (in_map snd _ _ Hin).
Qed.

Ltac step_keys_tac :=
  match goal with
  | |- shrinks ?l ?l ?c ?c \/ _ => left; apply shrinks_refl
  | |- shrinks _ (JsMap.keys (JsMap.delete _ _)) _ _ \/ _ => left; apply shrinks_delete
  | |- shrinks _ (JsMap.keys (JsMap.delete_where _ _ _)) _ _ \/ _ =>
      left; apply shrinks_delete_where
  | |- shrinks _ (JsMap.keys (JsMap.set _ _ _)) _ _ \/ _ =>
      left; apply shrinks_set_in; assumption
  | |- _ \/ grows _ (JsMap.keys (JsMap.set _ _ _)) _ _ => right; apply grows_set; assumption
  end.

(** [addBoardMember] leaves the membership map's keys or appends the counter. *)
Lemma addBoardMember_keys s im :
  keys_ok KMember s ->
  (boardMembers (fst (addBoardMember s im)) = boardMembers s /\
   currentBoardMemberId (fst (addBoardMember s im)) = currentBoardMemberId s) \/
  grows (JsMap.keys (boardMembers s)) (JsMap.keys (boardMembers (fst (addBoardMember s im))))
        (currentBoardMemberId s) (currentBoardMemberId (fst (addBoardMember s im))).
Proof.
  intros Hok. pose proof (fresh_counter _ _ Hok) as Hf. simpl in Hf.
  unfold addBoardMember. destruct JsMap.find_value; [left; auto|].
  right. simpl. apply grows_set. exact Hf.
Qed.

Lemma step_keys now s o k :
  (forall k, keys_ok k s) -> keys_step k s (fst (exec now s o)).
Proof.
  intros Hok. unfold keys_step.
  pose proof (fresh_counter KUser s (Hok KUser)) as FU.
  pose proof (fresh_counter KBoard s (Hok KBoard)) as FB.
  pose proof (fresh_counter KMember s (Hok KMember)) as FM.
  pose proof (fresh_counter KTodo s (Hok KTodo)) as FT.
  simpl in FU, FB, FM, FT.
  destruct o; simpl.
  - destruct k; simpl; step_keys_tac.
  - destruct k; simpl; step_keys_tac.
  - destruct k; simpl; step_keys_tac.
  - destruct k; simpl; step_keys_tac.
  - destruct k; simpl; step_keys_tac.
  - destruct k; simpl; step_keys_tac.
  - destruct k; simpl; step_keys_tac.
  - destruct k; simpl; step_keys_tac.
  - (* createBoard *)
    unfold createBoard. simpl.
    set (s1 := with_boards s _ _).
    assert (Hok1 : keys_ok KMember s1) by exact (Hok KMember).
    destruct k; simpl.
    + unfold addBoardMember. destruct JsMap.find_value; simpl; step_keys_tac.
    + unfold addBoardMember. destruct JsMap.find_value; simpl; step_keys_tac.
    + destruct (addBoardMember_keys s1 (mkInsertBoardMember (currentBoardId s) (ib_createdBy ib)
                                       (Some "admin")) Hok1) as [[E1 E2]|G].
      * rewrite E1, E2. left. apply shrinks_refl.
      * right. exact G.
    + unfold addBoardMember. destruct JsMap.find_value; simpl; step_keys_tac.
  - (* updateBoard *)
    unfold updateBoard. destruct (JsMap.get id (boards s)) as [b|] eqn:E; simpl;
      [|destruct k; simpl; step_keys_tac].
    assert (In id (JsMap.keys (boards s))) by
      (apply (MapFacts.In_keys id b), MapFacts.get_Some_In; exact E).
    destruct k; simpl; step_keys_tac.
  - (* deleteBoard *)
    unfold deleteBoard. destruct (JsMap.has id (boards s)); simpl;
      destruct k; simpl; step_keys_tac.
  - destruct k; simpl; step_keys_tac.
  - (* addBoardMember *)
    unfold addBoardMember. destruct JsMap.find_value; simpl; destruct k; simpl; step_keys_tac.
  - (* removeBoardMember *)
    unfold removeBoardMember. destruct JsMap.find_entry as [[mid mem]|]; simpl;
      destruct k; simpl; step_keys_tac.
  - (* updateBoardMemberRole *)
    unfold updateBoardMemberRole. destruct JsMap.find_entry as [[mid mem]|] eqn:E; simpl;
      [|destruct k; simpl; step_keys_tac].
    apply find_entry_In in E as [Hin _].
    assert (In mid (JsMap.keys (boardMembers s))) by (apply (MapFacts.In_keys mid mem); exact Hin).
    destruct k; simpl; step_keys_tac.
  - destruct k; simpl; step_keys_tac.
  - destruct k; simpl; step_keys_tac.
  - (* createTodo *)
    destruct k; simpl; step_keys_tac.
  - (* updateTodo *)
    unfold updateTodo. destruct (JsMap.get id (todos s)) as [t|] eqn:E; simpl;
      [|destruct k; simpl; step_keys_tac].
    assert (In id (JsMap.keys (todos s))) by
      (apply (MapFacts.In_keys id t), MapFacts.get_Some_In; exact E).
    destruct k; simpl; step_keys_tac.
  - destruct k; simpl; step_keys_tac.
Qed.

Lemma NoDup_snoc (l : list Z) c : NoDup l -> ~ In c l -> NoDup (l ++ [c]).
Proof.
  induction l as [|x l IH]; simpl; intros Hnd Hn.
  - constructor; [tauto | constructor].
  - inversion Hnd; subst. constructor; [|apply IH; tauto].
    rewrite in_app_iff. simpl. intuition.
Qed.

Lemma keys_ok_step now s o k :
  (forall k, keys_ok k s) -> keys_ok k (fst (exec now s o)).
Proof.
  intros Hok. pose proof (fresh_counter k s (Hok k)) as Hf.
  destruct (Hok k) as [Hnd Hlt].
  destruct (step_keys now s o k Hok) as [[Hn [Hi Hc]] | [Hl Hc]]; split.
  - auto.
  - rewrite Hc. rewrite Forall_forall in *. intros x Hx. apply Hlt, Hi, Hx.
  - rewrite Hl. apply NoDup_snoc; assumption.
  - rewrite Hl, Hc. apply Forall_app. split.
    + eapply Forall_impl; [|exact Hlt]. simpl. intros; lia.
    + constructor; [lia | constructor].
Qed.

Lemma new_keys_step now s o k :
  (forall k, keys_ok k s) ->
  let s' := fst (exec now s o) in
  (new_keys k s s' = [] /\ counter_of k s' = counter_of k s) \/
  (new_keys k s s' = [counter_of k s] /\ counter_of k s' = counter_of k s + 1).
Proof.
  intros Hok s'. pose proof (fresh_counter k s (Hok k)) as Hf.
  unfold new_keys.
  destruct (step_keys now s o k Hok) as [[_ [Hi Hc]] | [Hl Hc]].
  - left. split; [|exact Hc]. apply MapFacts.filter_all_false.
    intros x Hx. apply negb_false_iff, existsb_exists. exists x.
    split; [apply Hi, Hx | apply Z.eqb_refl].
  - right. split; [|exact Hc]. fold s' in Hl. rewrite Hl, filter_app.
    rewrite MapFacts.filter_all_false.
    + simpl. destruct (existsb (Z.eqb (counter_of k s)) (keys_of k s)) eqn:E; [|reflexivity].
      apply existsb_exists in E as [x [Hx Heq]]. apply Z.eqb_eq in Heq. subst. tauto.
    + intros x Hx. apply negb_false_iff, existsb_exists. exists x. split; [exact Hx|].
      apply Z.eqb_refl.
Qed.

(** Counting memberships of a pair. *)
Lemma count_filter_le {V} (P : V -> bool) (f : Z * V -> bool) (m : JsMap.t V) :
  (List.length (filter P (JsMap.values (filter f m)))
   <= List.length (filter P (JsMap.values m)))%nat.
Proof.
  induction m as [|e m IH]; simpl; [lia|].
  destruct (f e); simpl; destruct (P (snd e)); simpl; lia.
Qed.

Lemma count_set_same {V} (P : V -> bool) k v' (m : JsMap.t V) :
  In k (JsMap.keys m) ->
  (forall e, In e m -> fst e = k -> P (snd e) = P v') ->
  List.length (filter P (JsMap.values (JsMap.set k v' m)))
  = List.length (filter P (JsMap.values m)).
Proof.
  intros Hin. apply MapFacts.has_iff in Hin. unfold JsMap.set. rewrite Hin.
  clear Hin. induction m as [|[k0 v0] m IH]; simpl; intros H; [reflexivity|].
  destruct (Z.eqb_spec k0 k); simpl.
  - subst. rewrite <- (H (k, v0) (or_introl eq_refl) eq_refl). simpl.
    destruct (P v0); simpl; rewrite IH; auto.
  - destruct (P v0); simpl; rewrite IH; auto.
Qed.

Lemma amo_filter s s' f :
  boardMembers s' = filter f (boardMembers s) -> at_most_one s -> at_most_one s'.
Proof.
  intros E H b a. specialize (H b a). unfold members_for in *. rewrite E.
  pose proof (count_filter_le (pair_of b a) f (boardMembers s)). unfold pair_of in *. lia.
Qed.

Lemma amo_same s s' :
  boardMembers s' = boardMembers s -> at_most_one s -> at_most_one s'.
Proof. intros E H b a. unfold members_for. rewrite E. apply H. Qed.

Lemma addBoardMember_amo s im :
  keys_ok KMember s -> at_most_one s -> at_most_one (fst (addBoardMember s im)).
Proof.
  intros Hok H. pose proof (fresh_counter _ _ Hok) as Hf. simpl in Hf.
  unfold addBoardMember. destruct JsMap.find_value eqn:E; [exact H|].
  pose proof (find_value_None _ _ E) as Hnone. simpl.
  intros b a. unfold members_for. simpl.
  rewrite (MapFacts.values_set_notin _ _ _ Hf), filter_app. simpl.
  destruct (Z.eqb_spec (im_boardId im) b), (Z.eqb_spec (im_userId im) a); subst; simpl.
  - rewrite MapFacts.filter_all_false; [simpl; lia|]. intros x Hx. apply Hnone, Hx.
  - rewrite app_nil_r. apply H.
  - rewrite app_nil_r. apply H.
  - rewrite app_nil_r. apply H.
Qed.

Lemma amo_step now s o :
  (forall k, keys_ok k s) -> at_most_one s -> at_most_one (fst (exec now s o)).
Proof.
  intros Hok H. destruct o; simpl; try (apply (amo_same s); [reflexivity | exact H]).
  - unfold createBoard. simpl. apply addBoardMember_amo; [exact (Hok KMember) | exact H].
  - unfold updateBoard. destruct JsMap.get; simpl; exact H.
  - unfold deleteBoard. destruct JsMap.has; simpl; [|exact H].
    eapply amo_filter; [simpl; apply MapFacts.delete_where_filter | exact H].
  - pose proof (addBoardMember_amo s im (Hok KMember) H) as G.
    destruct (addBoardMember s im). exact G.
  - unfold removeBoardMember. destruct JsMap.find_entry as [[mid mem]|]; simpl; [|exact H].
    eapply amo_filter; [simpl; unfold JsMap.delete; reflexivity | exact H].
  - unfold updateBoardMemberRole. destruct JsMap.find_entry as [[mid mem]|] eqn:E; simpl;
      [|exact H].
    apply find_entry_In in E as [Hin _].
    destruct (Hok KMember) as [Hnd _]. simpl in Hnd.
    intros b a. unfold members_for. simpl.
    rewrite (count_set_same (pair_of b a) mid); [apply H | |].
    + apply (MapFacts.In_keys mid mem). exact Hin.
    + intros [k' v'] Hin' Hk. simpl in Hk. subst k'. simpl.
      rewrite (MapFacts.NoDup_In_unique mid v' mem _ Hnd Hin' Hin). reflexivity.
  - unfold updateTodo. destruct JsMap.get; simpl; exact H.
Qed.

Lemma inv_step now s o : inv s -> inv (fst (exec now s o)).
Proof.
  intros [Hok H]. split.
  - intros k. apply keys_ok_step. exact Hok.
  - apply amo_step; assumption.
Qed.

Lemma inv_init : inv init.
Proof.
  split.
  - intros []; split; constructor.
  - intros b a. simpl. lia.
Qed.

Lemma reachable_inv s : reachable s -> inv s.
Proof.
  induction 1; [apply inv_init | apply inv_step; assumption].
Qed.

End Invariant.

(** ** C4: monotonic handles *)

Lemma assigned_sorted_from k ops : forall s,
  (forall k, keys_ok k s) ->
  StronglySorted Z.lt (assigned k s ops) /\
  Forall (fun x => counter_of k s <= x) (assigned k s ops).
Proof.
  induction ops as [|[now o] ops IH]; intros s Hok; simpl.
  - split; constructor.
  - set (s' := fst (exec now s o)).
    assert (Hok' : forall k, keys_ok k s') by
      (intros k'; apply Invariant.keys_ok_step; exact Hok).
    destruct (IH s' Hok') as [Hs Hf].
    destruct (Invariant.new_keys_step now s o k Hok) as [[E Hc] | [E Hc]];
      fold s' in E, Hc; rewrite E; simpl.
    + split; [exact Hs|]. rewrite Hc in Hf. exact Hf.
    + rewrite Hc in Hf. split.
      * constructor; [exact Hs|]. eapply Forall_impl; [|exact Hf]. simpl. intros; lia.
      * constructor; [lia|]. eapply Forall_impl; [|exact Hf]. simpl. intros; lia.
Qed.

(** C4. For every entity kind and every sequence of calls from a fresh
    [MemStorage], the handles that the calls put into the store (the new
    keys of that kind's map, in order) are strictly increasing; hence no
    handle is assigned twice, whether or not its entity was deleted since. *)
Theorem handles_strictly_increasing (k : kind) (ops : list (Z * Op)) :
  StronglySorted Z.lt (assigned k init ops).
Proof.
  apply (assigned_sorted_from k ops init). apply (proj1 Invariant.inv_init).
Qed.

Example handles_after_delete :
  assigned KTodo init
    [(0, CreateTodo (write_spec 1 1)); (1, DeleteTodo 1);
     (2, CreateTodo (write_spec 1 1)); (3, CreateBoard (launch_plan 1))] = [1; 2].
Proof. reflexivity. Qed.

(** ** C2: one membership per pair, idempotent [addBoardMember] *)

Lemma find_value_none_of {V} (p : V -> bool) (m : JsMap.t V) :
  filter p (JsMap.values m) = [] -> JsMap.find_value p m = None.
Proof.
  unfold JsMap.find_value. induction m as [|[k v] m IH]; simpl; [reflexivity|].
  destruct (p v); [discriminate|]. exact IH.
Qed.

Lemma find_value_first {V} (p : V -> bool) (m : JsMap.t V) v l :
  filter p (JsMap.values m) = v :: l -> JsMap.find_value p m = Some v.
Proof.
  unfold JsMap.find_value. induction m as [|[k v'] m IH]; simpl; [discriminate|].
  destruct (p v'); [intros H; inversion H; reflexivity | exact IH].
Qed.

Lemma is_role_nonempty r : is_role r = true -> String.eqb r "" = false.
Proof.
  unfold is_role. intros H. destruct (String.eqb_spec r ""); [|reflexivity].
  subst. discriminate.
Qed.

(** C2. In every reachable store there is at most one membership per
    (board, account) pair; and if the pair (B, A) has no membership yet,
    calling [addBoardMember] for (B, A) with a role r1 and then again with
    any role r2 leaves exactly one membership for (B, A), whose role is r1:
    the second call returns the first call's membership and changes nothing. *)
Theorem addBoardMember_idempotent (s : Store) (B A : Z) (r1 : string) (r2 : option string)
  (Hreach : reachable s) (Hnone : members_for B A s = []) (Hrole : is_role r1 = true) :
  at_most_one s /\
  let (s1, m1) := addBoardMember s (mkInsertBoardMember B A (Some r1)) in
  let (s2, m2) := addBoardMember s1 (mkInsertBoardMember B A r2) in
  members_for B A s2 = [m1] /\ role m1 = r1 /\ m2 = m1 /\ s2 = s1.
Proof.
  destruct (Invariant.reachable_inv s Hreach) as [Hok Hamo].
  split; [exact Hamo|].
  pose proof (Invariant.fresh_counter KMember s (Hok KMember)) as Hf. simpl in Hf.
  set (m1 := mkBoardMember (currentBoardMemberId s) B A (str_or (Some r1) "editor")).
  set (s1 := with_members s (JsMap.set (currentBoardMemberId s) m1 (boardMembers s))
                          (currentBoardMemberId s + 1)).
  assert (Hm1 : members_for B A s1 = [m1]).
  { unfold members_for. simpl. rewrite (MapFacts.values_set_notin _ _ _ Hf), filter_app.
    unfold members_for in Hnone. rewrite Hnone. simpl. rewrite !Z.eqb_refl. reflexivity. }
  assert (E1 : addBoardMember s (mkInsertBoardMember B A (Some r1)) = (s1, m1)).
  { unfold addBoardMember. simpl. unfold members_for in Hnone.
    rewrite (find_value_none_of _ _ Hnone). reflexivity. }
  assert (E2 : addBoardMember s1 (mkInsertBoardMember B A r2) = (s1, m1)).
  { unfold addBoardMember. cbn [im_boardId im_userId]. unfold members_for in Hm1.
    rewrite (find_value_first _ _ _ _ Hm1). reflexivity. }
  rewrite E1, E2. split; [exact Hm1|]. split; [|auto].
  simpl. rewrite (is_role_nonempty r1 Hrole). reflexivity.
Qed.

(** Witness: a fresh store, board 1, account 1, roles "viewer" then "admin". *)
Lemma addBoardMember_idempotent_witness :
  reachable init /\ members_for 1 1 init = [] /\ is_role "viewer" = true /\
  (at_most_one init /\
   let (s1, m1) := addBoardMember init (mkInsertBoardMember 1 1 (Some "viewer")) in
   let (s2, m2) := addBoardMember s1 (mkInsertBoardMember 1 1 (Some "admin")) in
   members_for 1 1 s2 = [m1] /\ role m1 = "viewer" /\ m2 = m1 /\ s2 = s1).
Proof.
  split; [exact reach_init|]. split; [reflexivity|]. split; [reflexivity|].
  apply (addBoardMember_idempotent init 1 1 "viewer" (Some "admin"));
    [exact reach_init | reflexivity | reflexivity].
Defined.

(** ** C8: [createUser] *)

(** C8. On every reachable store, [createUser] assigns a handle no account
    holds, stores the account under it, keeps the login name, credential hash
    and phone number exactly as given, and stores each optional field
    (display name, avatar) exactly as given except that an unset or empty
    one becomes absent; neither is ever stored as the empty string. *)
Theorem createUser_stores_given (s : Store) (iu : InsertUser) (Hreach : reachable s) :
  let (s', u) := createUser s iu in
  u_id u = currentUserId s /\ getUser s (u_id u) = None /\ getUser s' (u_id u) = Some u /\
  username u = iu_username iu /\ password u = iu_password iu /\
  phoneNumber u = iu_phoneNumber iu /\
  (displayName u = iu_displayName iu \/ (iu_displayName iu = Some "" /\ displayName u = None)) /\
  displayName u <> Some "" /\
  (photoURL u = iu_photoURL iu \/ (iu_photoURL iu = Some "" /\ photoURL u = None)) /\
  photoURL u <> Some "".
Proof.
  destruct (Invariant.reachable_inv s Hreach) as [Hok _].
  pose proof (Invariant.fresh_counter KUser s (Hok KUser)) as Hf. simpl in Hf.
  unfold createUser, getUser. simpl.
  split; [reflexivity|]. split; [apply MapFacts.get_None_iff; exact Hf|].
  split; [apply MapFacts.get_set_same|].
  split; [reflexivity|]. split; [reflexivity|]. split; [reflexivity|].
  unfold str_or_null.
  destruct (iu_displayName iu) as [d|], (iu_photoURL iu) as [p|]; simpl;
    try destruct (String.eqb_spec d ""); try destruct (String.eqb_spec p "");
    subst; repeat split; auto; congruence.
Qed.

(** Witness: registering a second account after "alice". *)
Lemma createUser_stores_given_witness :
  reachable (fst (exec 0 init (CreateUser alice))) /\
  (let (s', u) := createUser (fst (exec 0 init (CreateUser alice)))
                    (mkInsertUser "bob" "h2" "+15550002" (Some "") (Some "b.png")) in
   u_id u = currentUserId (fst (exec 0 init (CreateUser alice))) /\
   getUser (fst (exec 0 init (CreateUser alice))) (u_id u) = None /\
   getUser s' (u_id u) = Some u /\
   username u = "bob" /\ password u = "h2" /\ phoneNumber u = "+15550002" /\
   (displayName u = Some "" \/ (Some "" = Some "" /\ displayName u = None)) /\
   displayName u <> Some "" /\
   (photoURL u = Some "b.png" \/ (Some "b.png" = Some "" /\ photoURL u = None)) /\
   photoURL u <> Some "").
Proof.
  assert (H : reachable (fst (exec 0 init (CreateUser alice)))) by
    (apply reach_step; exact reach_init).
  split; [exact H|].
  exact (createUser_stores_given _ (mkInsertUser "bob" "h2" "+15550002" (Some "") (Some "b.png")) H).
Defined.

(** ** C3: [createBoard] *)

(** C3 (counterexample). A membership may be added for a board handle before
    that board exists; the board later created under that handle by the same
    account gets no admin membership: the pre-existing viewer membership is
    kept. *)
Lemma createBoard_admin_counterexample :
  let (s', b) := createBoard 10 admin_bootstrap_store (launch_plan 1) in
  b_id b = 1 /\ getBoard s' 1 = Some b /\
  members_for 1 1 s' = [mkBoardMember 1 1 1 "viewer"] /\
  Forall (fun m => role m <> "admin") (getBoardMembers s' 1).
Proof.
  vm_compute. split; [reflexivity|]. split; [reflexivity|]. split; [reflexivity|].
  repeat constructor; discriminate.
Qed.

(** C3 (amended). On every reachable store, [createBoard] at clock reading
    [now] returns a board under a handle no board holds, with [createdAt =
    now], the color given (when non-empty) or "primary", the description
    given (when non-empty) or absent; in the same step it stores the board
    and leaves exactly one membership for (board, creator): a new admin
    membership when none existed, the pre-existing one otherwise. *)
Theorem createBoard_spec (now : Z) (s : Store) (ib : InsertBoard) (Hreach : reachable s) :
  let (s', b) := createBoard now s ib in
  b_id b = currentBoardId s /\ getBoard s (b_id b) = None /\ getBoard s' (b_id b) = Some b /\
  currentBoardId s' = currentBoardId s + 1 /\
  createdAt b = now /\ createdBy b = ib_createdBy ib /\ title b = ib_title ib /\
  ((ib_color ib = Some (color b) /\ color b <> "") \/
   ((ib_color ib = None \/ ib_color ib = Some "") /\ color b = "primary")) /\
  ((ib_description ib = description b /\ description b <> Some "") \/
   ((ib_description ib = None \/ ib_description ib = Some "") /\ description b = None)) /\
  members_for (b_id b) (createdBy b) s' =
    match members_for (b_id b) (createdBy b) s with
    | [] => [mkBoardMember (currentBoardMemberId s) (b_id b) (createdBy b) "admin"]
    | l => l
    end.
Proof.
  destruct (Invariant.reachable_inv s Hreach) as [Hok Hamo].
  pose proof (Invariant.fresh_counter KBoard s (Hok KBoard)) as Hfb. simpl in Hfb.
  pose proof (Invariant.fresh_counter KMember s (Hok KMember)) as Hfm. simpl in Hfm.
  unfold createBoard. cbn [fst snd b_id createdAt createdBy title color description].
  set (c := currentBoardId s).
  set (board := mkBoard c (ib_title ib) (str_or_null (ib_description ib))
                        (str_or (ib_color ib) "primary") (ib_createdBy ib) now).
  set (s1 := with_boards s (JsMap.set c board (boards s)) (c + 1)).
  assert (Hadd : getBoard (fst (addBoardMember s1 (mkInsertBoardMember c (ib_createdBy ib)
                                                  (Some "admin")))) c = Some board /\
                 currentBoardId (fst (addBoardMember s1 (mkInsertBoardMember c (ib_createdBy ib)
                                                  (Some "admin")))) = c + 1).
  { unfold addBoardMember. destruct JsMap.find_value; simpl;
      (split; [apply MapFacts.get_set_same | reflexivity]). }
  destruct Hadd as [Hg Hc].
  split; [reflexivity|]. split; [apply MapFacts.get_None_iff; exact Hfb|].
  split; [exact Hg|]. split; [exact Hc|].
  split; [reflexivity|]. split; [reflexivity|]. split; [reflexivity|].
  split.
  { unfold board; simpl. unfold str_or. destruct (ib_color ib) as [x|]; [|tauto].
    destruct (String.eqb_spec x ""); [subst; tauto | left; split; congruence]. }
  split.
  { unfold board; simpl. unfold str_or_null. destruct (ib_description ib) as [x|]; [|tauto].
    destruct (String.eqb_spec x ""); [subst; tauto | left; split; congruence]. }
  unfold addBoardMember, s1, with_boards.
  cbn [boardMembers currentBoardMemberId im_boardId im_userId im_role].
  destruct (members_for c (ib_createdBy ib) s) as [|m l] eqn:E.
  - unfold members_for in E. rewrite (find_value_none_of _ _ E).
    unfold members_for. simpl. rewrite (MapFacts.values_set_notin _ _ _ Hfm), filter_app.
    rewrite E. simpl. rewrite !Z.eqb_refl. reflexivity.
  - unfold members_for in E. rewrite (find_value_first _ _ _ _ E). simpl.
    unfold members_for. simpl. exact E.
Qed.

(** Witness: the "Launch Plan" board of account 1 on a fresh store. *)
Lemma createBoard_spec_witness :
  reachable init /\
  (let (s', b) := createBoard 10 init (launch_plan 1) in
   b_id b = currentBoardId init /\ getBoard init (b_id b) = None /\
   getBoard s' (b_id b) = Some b /\ currentBoardId s' = currentBoardId init + 1 /\
   createdAt b = 10 /\ createdBy b = 1 /\ title b = "Launch Plan" /\
   ((None = Some (color b) /\ color b <> "") \/
    ((@None string = None \/ @None string = Some "") /\ color b = "primary")) /\
   ((None = description b /\ description b <> Some "") \/
    ((@None string = None \/ @None string = Some "") /\ description b = None)) /\
   members_for (b_id b) (createdBy b) s' =
     match members_for (b_id b) (createdBy b) init with
     | [] => [mkBoardMember (currentBoardMemberId init) (b_id b) (createdBy b) "admin"]
     | l => l
     end).
Proof.
  split; [exact reach_init|].
  exact (createBoard_spec 10 init (launch_plan 1) reach_init).
Defined.

(** ** C6: [updateTodo] and [updatedAt] *)

(** C6 (counterexample). A todo created at clock reading 5 and updated with
    an empty partial update at the same reading (two calls within one
    millisecond): its [updatedAt] does not increase. *)
Lemma updateTodo_same_tick_counterexample :
  match getTodo same_tick_store 1, snd (updateTodo 5 same_tick_store 1 no_todo_update) with
  | Some t, Some t' => updatedAt t' = updatedAt t /\ ~ (updatedAt t < updatedAt t')
  | _, _ => False
  end.
Proof. vm_compute. split; [reflexivity | discriminate]. Qed.

(** C6 (amended). [updateTodo(T, p)] returns absent and changes nothing when
    [T] does not exist; otherwise it stores and returns the merge of the
    todo with [p] whose [updatedAt] is the clock reading of the call, whatever
    [p] holds (even nothing, or an [updatedAt] of its own); so [updatedAt]
    strictly increases exactly when the clock has advanced past the old
    [updatedAt]. *)
Theorem updateTodo_refreshes (now : Z) (s : Store) (id : Z) (p : PartialTodo) :
  let (s', r) := updateTodo now s id p in
  match getTodo s id with
  | None => r = None /\ s' = s
  | Some t =>
      r = Some (merge_todo t p now) /\ getTodo s' id = Some (merge_todo t p now) /\
      updatedAt (merge_todo t p now) = now /\
      (updatedAt t < updatedAt (merge_todo t p now) <-> updatedAt t < now)
  end.
Proof.
  unfold updateTodo, getTodo. destruct (JsMap.get id (todos s)) as [t|]; [|auto].
  split; [reflexivity|]. split; [apply MapFacts.get_set_same|].
  split; reflexivity.
Qed.

(** ** C7: [updateBoard] *)

(** C7 (counterexample). [updateBoard] with a partial update that names
    [createdBy] rewrites the creator of the board. *)
Lemma updateBoard_createdBy_counterexample :
  let s1 := fst (createBoard 10 init (launch_plan 1)) in
  let p := mkPartialBoard None None None None (Some 2) None in
  match getBoard s1 1, snd (updateBoard s1 1 p) with
  | Some b, Some b' => createdBy b = 1 /\ createdBy b' = 2
  | _, _ => False
  end.
Proof. vm_compute. split; reflexivity. Qed.

(** C7 (amended). [updateBoard(B, p)] returns absent and changes nothing when
    no board [B] exists; otherwise it stores under [B] and returns the board
    with every field present in [p] overwritten and every other field kept:
    in particular [createdAt] and [createdBy] change only when [p] contains
    them (the HTTP handler passes only title, description and color). Other
    boards are untouched. *)
Theorem updateBoard_merge (s : Store) (id : Z) (p : PartialBoard) :
  let (s', r) := updateBoard s id p in
  match getBoard s id with
  | None => r = None /\ s' = s
  | Some b =>
      r = Some (merge_board b p) /\ getBoard s' id = Some (merge_board b p) /\
      createdAt (merge_board b p) = upd (pb_createdAt p) (createdAt b) /\
      createdBy (merge_board b p) = upd (pb_createdBy p) (createdBy b) /\
      title (merge_board b p) = upd (pb_title p) (title b) /\
      description (merge_board b p) = upd (pb_description p) (description b) /\
      color (merge_board b p) = upd (pb_color p) (color b) /\
      b_id (merge_board b p) = upd (pb_id p) (b_id b) /\
      (forall k, k <> id -> getBoard s' k = getBoard s k)
  end.
Proof.
  unfold updateBoard, getBoard. destruct (JsMap.get id (boards s)) as [b|]; [|auto].
  split; [reflexivity|]. split; [apply MapFacts.get_set_same|].
  repeat split. intros k Hk. apply MapFacts.get_set_other. exact Hk.
Qed.

(** ** C5: [getBoardsByUser] *)

(** C5 (failing input). The membership route adds a membership for board
    handle 7 although no board 7 exists; [getBoardsByUser(1)] then returns an
    entry with no board at all (the spread of [this.boards.get(7)!], which is
    [undefined]), carrying only the counts. *)
Lemma getBoardsByUser_dangling :
  getBoard dangling_store 7 = None /\
  getBoardsByUser dangling_store 1 = [mkBWC None 0 1].
Proof. split; reflexivity. Qed.

Example getBoardsByUser_union :
  let s := run init [(0, CreateBoard (launch_plan 1)); (1, CreateBoard (launch_plan 2));
                     (2, AddBoardMember (mkInsertBoardMember 2 1 None));
                     (3, AddBoardMember (mkInsertBoardMember 1 1 None))] in
  map (fun e => (option_map b_id (bwc_board e), todoCount e, memberCount e))
      (getBoardsByUser s 1) = [(Some 1, 0%nat, 1%nat); (Some 2, 0%nat, 2%nat)].
Proof. reflexivity. Qed.

(** ** C9: totality and the not-found sentinel *)

Lemma find_value_None_iff {V} (p : V -> bool) (m : JsMap.t V) :
  JsMap.find_value p m = None <-> forall v, In v (JsMap.values m) -> p v = false.
Proof.
  split; [apply Invariant.find_value_None|]. intros H.
  apply find_value_none_of, MapFacts.filter_all_false. exact H.
Qed.

Lemma find_entry_None_iff {V} (p : V -> bool) (m : JsMap.t V) :
  JsMap.find_entry p m = None <-> filter p (JsMap.values m) = [].
Proof.
  unfold JsMap.find_entry. induction m as [|[k v] m IH]; simpl; [tauto|].
  destruct (p v); [split; discriminate | exact IH].
Qed.

Lemma eqb_false_all {A} (f : A -> string) (xs : list A) (n : string) :
  (forall x, In x xs -> String.eqb (f x) n = false) <-> (forall x, In x xs -> f x <> n).
Proof.
  split; intros H x Hx; specialize (H x Hx).
  - apply String.eqb_neq. exact H.
  - apply String.eqb_neq. exact H.
Qed.

Ltac sentinel_get :=
  split; [intros _; apply MapFacts.get_None_iff; assumption | reflexivity].

(** C9. Every call of the storage interface is a total function of the
    store (the embedding has no failure result: no call raises), and a call
    resolves to the [undefined]/[false] sentinel exactly when the entity it
    targets (account, board, membership or todo) does not exist; calls
    without a target never resolve to a sentinel. *)
Theorem sentinel_iff_not_found (now : Z) (s : Store) (o : Op) :
  is_sentinel (snd (exec now s o)) = true <-> not_found s o.
Proof.
  destruct o; simpl.
  - unfold getUser. destruct (JsMap.get _ _) eqn:E; simpl.
    + split; [discriminate|]. intros H. apply MapFacts.get_None_iff in H. congruence.
    + sentinel_get.
  - unfold getUserByUsername.
    rewrite <- (eqb_false_all username).
    destruct JsMap.find_value eqn:E; simpl.
    + split; [discriminate|]. intros H. apply find_value_None_iff in H. congruence.
    + split; [intros _; apply find_value_None_iff; exact E | reflexivity].
  - unfold getUserByPhoneNumber.
    rewrite <- (eqb_false_all phoneNumber).
    destruct JsMap.find_value eqn:E; simpl.
    + split; [discriminate|]. intros H. apply find_value_None_iff in H. congruence.
    + split; [intros _; apply find_value_None_iff; exact E | reflexivity].
  - destruct (createUser s iu); simpl. split; [discriminate | tauto].
  - split; [discriminate | tauto].
  - split; [discriminate | tauto].
  - unfold getBoard. destruct (JsMap.get _ _) eqn:E; simpl.
    + split; [discriminate|]. intros H. apply MapFacts.get_None_iff in H. congruence.
    + sentinel_get.
  - unfold getBoardWithMembers. destruct (JsMap.get _ _) eqn:E; simpl.
    + split; [discriminate|]. intros H. apply MapFacts.get_None_iff in H. congruence.
    + sentinel_get.
  - destruct (createBoard now s ib); simpl. split; [discriminate | tauto].
  - unfold updateBoard. destruct (JsMap.get _ _) eqn:E; simpl.
    + split; [discriminate|]. intros H. apply MapFacts.get_None_iff in H. congruence.
    + sentinel_get.
  - unfold deleteBoard. destruct (JsMap.has _ _) eqn:E; simpl.
    + split; [discriminate|]. intros H. apply MapFacts.has_false_iff in H. congruence.
    + split; [intros _; apply MapFacts.has_false_iff; exact E | reflexivity].
  - split; [discriminate | tauto].
  - destruct (addBoardMember s im); simpl. split; [discriminate | tauto].
  - unfold removeBoardMember, members_for. destruct JsMap.find_entry as [[mid mem]|] eqn:E;
      simpl.
    + split; [discriminate|]. intros H. apply find_entry_None_iff in H. congruence.
    + split; [intros _; apply find_entry_None_iff; exact E | reflexivity].
  - unfold updateBoardMemberRole, members_for.
    destruct JsMap.find_entry as [[mid mem]|] eqn:E; simpl.
    + split; [discriminate|]. intros H. apply find_entry_None_iff in H. congruence.
    + split; [intros _; apply find_entry_None_iff; exact E | reflexivity].
  - split; [discriminate | tauto].
  - unfold getTodo. destruct (JsMap.get _ _) eqn:E; simpl.
    + split; [discriminate|]. intros H. apply MapFacts.get_None_iff in H. congruence.
    + sentinel_get.
  - destruct (createTodo s now it); simpl. split; [discriminate | tauto].
  - unfold updateTodo. destruct (JsMap.get _ _) eqn:E; simpl.
    + split; [discriminate|]. intros H. apply MapFacts.get_None_iff in H. congruence.
    + sentinel_get.
  - unfold deleteTodo. destruct (JsMap.has _ _) eqn:E; simpl.
    + split; [discriminate|]. intros H. apply MapFacts.has_false_iff in H. congruence.
    + split; [intros _; apply MapFacts.has_false_iff; exact E | reflexivity].
Qed.

(** * Further properties of [MemStorage] and its routes *)

Module Extra.

Lemma run_reachable s ops : reachable s -> reachable (run s ops).
Proof.
  revert s. induction ops as [|[now o] ops IH]; intros s H; simpl; [exact H|].
  apply IH. apply reach_step. exact H.
Qed.

Lemma count_In_pos {V} (P : V -> bool) (m : JsMap.t V) e :
  In e m -> P (snd e) = true -> (1 <= List.length (filter P (JsMap.values m)))%nat.
Proof.
  induction m as [|e' m IH]; simpl; [tauto|]. intros [<-|H] Hp.
  - rewrite Hp. simpl. lia.
  - destruct (P (snd e')); simpl; [lia | auto].
Qed.

Lemma count_two {V} (P : V -> bool) (m : JsMap.t V) e1 e2 :
  In e1 m -> In e2 m -> fst e1 <> fst e2 -> P (snd e1) = true -> P (snd e2) = true ->
  (2 <= List.length (filter P (JsMap.values m)))%nat.
Proof.
  induction m as [|e m IH]; simpl; [tauto|].
  intros H1 H2 Hne P1 P2.
  destruct H1 as [<-|H1]; destruct H2 as [<-|H2].
  - congruence.
  - rewrite P1. simpl. pose proof (count_In_pos P m e2 H2 P2). lia.
  - rewrite P2. simpl. pose proof (count_In_pos P m e1 H1 P1). lia.
  - destruct (P (snd e)); simpl; [|auto]. specialize (IH H1 H2 Hne P1 P2). lia.
Qed.

(** In a store with at most one membership per pair, a matching entry is the
    only one. *)
Lemma match_unique s B A e e' :
  at_most_one s -> In e (boardMembers s) -> In e' (boardMembers s) ->
  pair_of B A (snd e) = true -> pair_of B A (snd e') = true -> fst e' = fst e.
Proof.
  intros H He He' P P'. destruct (Z.eq_dec (fst e') (fst e)) as [|Hne]; [assumption|].
  pose proof (count_two (pair_of B A) _ _ _ He He' (not_eq_sym Hne) P P') as C.
  specialize (H B A). unfold members_for, pair_of in *. lia.
Qed.

Lemma find_entry_first {V} (p : V -> bool) (m : JsMap.t V) k v :
  JsMap.find_entry p m = Some (k, v) ->
  exists l, filter p (JsMap.values m) = v :: l.
Proof.
  unfold JsMap.find_entry. induction m as [|[k0 v0] m IH]; simpl; [discriminate|].
  destruct (p v0) eqn:E.
  - intros H. inversion H; subst. eexists; reflexivity.
  - exact IH.
Qed.

Ltac store_frame := repeat split; reflexivity.

(** X1. On every reachable store, [removeBoardMember(B, A)] returns true
    exactly when (B, A) had a membership; afterwards (B, A) has none, every
    other membership is kept under its handle, and the other collections
    are untouched. *)
Theorem removeBoardMember_spec (s : Store) (B A : Z) (Hreach : reachable s) :
  let (s', r) := removeBoardMember s B A in
  (r = true <-> members_for B A s <> []) /\ members_for B A s' = [] /\
  (forall k m, pair_of B A m = false ->
     (JsMap.get k (boardMembers s') = Some m <-> JsMap.get k (boardMembers s) = Some m)) /\
  users s' = users s /\ boards s' = boards s /\ todos s' = todos s.
Proof.
  destruct (Invariant.reachable_inv s Hreach) as [Hok Hamo].
  destruct (Hok KMember) as [Hnd _]. simpl in Hnd.
  unfold removeBoardMember. destruct JsMap.find_entry as [[mid mem]|] eqn:E.
  - pose proof (Invariant.find_entry_In _ _ _ E) as [Hin Hp]. simpl in Hp.
    assert (Hne : members_for B A s <> []).
    { unfold members_for. intros Hnil. apply (find_entry_None_iff _ (boardMembers s)) in Hnil.
      congruence. }
    split; [tauto|]. split.
    + unfold members_for. simpl. apply MapFacts.filter_all_false.
      intros x Hx. unfold JsMap.values, JsMap.delete in Hx.
      apply in_map_iff in Hx as [e [He Hx]]. apply filter_In in Hx as [Hx Hk].
      destruct (pair_of B A x) eqn:Px; [|exact Px].
      subst x. pose proof (match_unique s B A (mid, mem) e Hamo Hin Hx Hp Px) as Hk'.
      simpl in Hk'. rewrite Hk', Z.eqb_refl in Hk. discriminate.
    + split; [|store_frame].
      intros k m Pm. simpl. destruct (Z.eq_dec k mid) as [->|Hk].
      * rewrite MapFacts.get_delete_same. rewrite (MapFacts.get_In_iff _ _ _ Hnd).
        split; [discriminate|]. intros Hin'.
        rewrite (MapFacts.NoDup_In_unique mid m mem _ Hnd Hin' Hin) in Pm. unfold pair_of in Pm. congruence.
      * rewrite (MapFacts.get_delete_other _ _ _ Hk). tauto.
  - split.
    + split; [discriminate|]. intros Hne. exfalso. apply Hne.
      apply find_entry_None_iff in E. exact E.
    + split; [apply find_entry_None_iff in E; exact E|]. split; [tauto | store_frame].
Qed.

(** Witness: removing the viewer (account 7) of board 1 of the sample store. *)
Lemma removeBoardMember_spec_witness :
  reachable scenario /\
  (let (s', r) := removeBoardMember scenario 1 7 in
   (r = true <-> members_for 1 7 scenario <> []) /\ members_for 1 7 s' = [] /\
   (forall k m, pair_of 1 7 m = false ->
      (JsMap.get k (boardMembers s') = Some m <-> JsMap.get k (boardMembers scenario) = Some m)) /\
   users s' = users scenario /\ boards s' = boards scenario /\ todos s' = todos scenario).
Proof.
  assert (H : reachable scenario) by (apply run_reachable; exact reach_init).
  split; [exact H|]. exact (removeBoardMember_spec scenario 1 7 H).
Defined.

Lemma filter_replaced {V} (P : V -> bool) k v' (m : JsMap.t V) :
  NoDup (JsMap.keys m) -> In k (JsMap.keys m) -> P v' = true ->
  (forall e, In e m -> P (snd e) = true -> fst e = k) ->
  filter P (map (fun e => if Z.eqb (fst e) k then v' else snd e) m) = [v'].
Proof.
  induction m as [|[k0 v0] m IH]; simpl; [tauto|].
  intros Hnd Hin Pv H. inversion Hnd as [|? ? Hn Hnd']; subst.
  destruct (Z.eqb_spec k0 k) as [->|Hk].
  - simpl. rewrite Pv. f_equal. apply MapFacts.filter_all_false.
    intros x Hx. apply in_map_iff in Hx as [[k1 v1] [Hx Hin1]]. simpl in Hx.
    destruct (Z.eqb_spec k1 k).
    + subst. exfalso. apply Hn. apply (MapFacts.In_keys k v1 m Hin1).
    + subst x. destruct (P v1) eqn:P1; [|reflexivity].
      exfalso. apply n. apply (H (k1, v1) (or_intror Hin1) P1).
  - simpl. destruct (P v0) eqn:P0.
    + exfalso. apply Hk. apply (H (k0, v0) (or_introl eq_refl) P0).
    + apply IH; auto. destruct Hin as [Hin|Hin]; [congruence | exact Hin].
Qed.

(** X2. On every reachable store, [updateBoardMemberRole(B, A, r)] returns
    absent and changes nothing when (B, A) has no membership; otherwise it
    returns the existing membership with role [r] and the same handle, and
    afterwards that is the only membership of (B, A); membership handles are
    unchanged. *)
Theorem updateBoardMemberRole_spec (s : Store) (B A : Z) (r : string) (Hreach : reachable s) :
  let (s', res) := updateBoardMemberRole s B A r in
  match members_for B A s with
  | [] => res = None /\ s' = s
  | m :: _ =>
      res = Some (mkBoardMember (m_id m) B A r) /\
      members_for B A s' = [mkBoardMember (m_id m) B A r] /\
      JsMap.keys (boardMembers s') = JsMap.keys (boardMembers s)
  end.
Proof.
  destruct (Invariant.reachable_inv s Hreach) as [Hok Hamo].
  destruct (Hok KMember) as [Hnd _]. simpl in Hnd.
  unfold updateBoardMemberRole. destruct JsMap.find_entry as [[mid mem]|] eqn:E.
  - pose proof (Invariant.find_entry_In _ _ _ E) as [Hin Hp]. simpl in Hp.
    destruct (find_entry_first _ _ _ _ E) as [l Hl].
    unfold members_for. rewrite Hl.
    unfold pair_of in Hp. apply andb_true_iff in Hp as [Hb Ha].
    apply Z.eqb_eq in Hb, Ha. rewrite Hb, Ha.
    assert (HinK : In mid (JsMap.keys (boardMembers s))) by exact (MapFacts.In_keys _ _ _ Hin).
    split; [reflexivity|]. split.
    + simpl. unfold JsMap.set. apply MapFacts.has_iff in HinK as HinK'. rewrite HinK'.
      unfold JsMap.values. rewrite map_map.
      rewrite (map_ext _ (fun e => if Z.eqb (fst e) mid then mkBoardMember (m_id mem) B A r
                                   else snd e))
        by (intros [k0 v0]; simpl; destruct (k0 =? mid); reflexivity).
      apply (filter_replaced (fun m => (m_boardId m =? B) && (m_userId m =? A))
                             mid (mkBoardMember (m_id mem) B A r)); auto.
      * simpl. rewrite !Z.eqb_refl. reflexivity.
      * intros e He Pe. apply (match_unique s B A (mid, mem) e Hamo Hin He); auto.
        unfold pair_of. simpl. rewrite Hb, Ha, !Z.eqb_refl. reflexivity.
    + simpl. apply MapFacts.keys_set_in. exact HinK.
  - unfold members_for. apply find_entry_None_iff in E. rewrite E. auto.
Qed.

(** Witness: promoting account 1 on a board it created. *)
Lemma updateBoardMemberRole_spec_witness :
  reachable (fst (exec 0 init (CreateBoard (launch_plan 1)))) /\
  (let s := fst (exec 0 init (CreateBoard (launch_plan 1))) in
   let (s', res) := updateBoardMemberRole s 1 1 "viewer" in
   match members_for 1 1 s with
   | [] => res = None /\ s' = s
   | m :: _ =>
       res = Some (mkBoardMember (m_id m) 1 1 "viewer") /\
       members_for 1 1 s' = [mkBoardMember (m_id m) 1 1 "viewer"] /\
       JsMap.keys (boardMembers s') = JsMap.keys (boardMembers s)
   end).
Proof.
  assert (H : reachable (fst (exec 0 init (CreateBoard (launch_plan 1))))) by
    (apply reach_step; exact reach_init).
  split; [exact H|]. exact (updateBoardMemberRole_spec _ 1 1 "viewer" H).
Defined.

Lemma getTodos_todos s B :
  map fst (getTodos s B) = filter (fun t => Z.eqb (t_boardId t) B) (JsMap.values (todos s)).
Proof.
  unfold getTodos. rewrite map_map.
  erewrite map_ext; [apply map_id|]. intros t. simpl.
  destruct (num_or_null (assignedTo t)); reflexivity.
Qed.

(** X3. On every reachable store, [createTodo] at clock reading [now] stores
    the todo under a handle no todo holds, with [createdAt] and [updatedAt]
    both [now]; status defaults to "todo" and priority to "medium" when unset
    or empty, and an unset or zero assignee becomes none; the new todo is
    listed last by [getTodos] of its board. *)
Theorem createTodo_spec (s : Store) (now : Z) (it : InsertTodo) (Hreach : reachable s) :
  let (s', t) := createTodo s now it in
  t_id t = currentTodoId s /\ getTodo s (t_id t) = None /\ getTodo s' (t_id t) = Some t /\
  t_createdAt t = now /\ updatedAt t = now /\ t_boardId t = it_boardId it /\
  ((it_status it = Some (status t) /\ status t <> "") \/
   ((it_status it = None \/ it_status it = Some "") /\ status t = "todo")) /\
  ((it_priority it = Some (priority t) /\ priority t <> "") \/
   ((it_priority it = None \/ it_priority it = Some "") /\ priority t = "medium")) /\
  ((it_assignedTo it = assignedTo t /\ assignedTo t <> Some 0) \/
   ((it_assignedTo it = None \/ it_assignedTo it = Some 0) /\ assignedTo t = None)) /\
  map fst (getTodos s' (t_boardId t)) = map fst (getTodos s (t_boardId t)) ++ [t].
Proof.
  destruct (Invariant.reachable_inv s Hreach) as [Hok _].
  pose proof (Invariant.fresh_counter KTodo s (Hok KTodo)) as Hf. simpl in Hf.
  unfold createTodo, getTodo. cbn [fst snd t_id t_createdAt updatedAt t_boardId status
                                       priority assignedTo todos with_todos].
  split; [reflexivity|]. split; [apply MapFacts.get_None_iff; exact Hf|].
  split; [apply MapFacts.get_set_same|].
  split; [reflexivity|]. split; [reflexivity|]. split; [reflexivity|].
  split.
  { unfold str_or. destruct (it_status it) as [x|]; [|tauto].
    destruct (String.eqb_spec x ""); [subst; tauto | left; split; congruence]. }
  split.
  { unfold str_or. destruct (it_priority it) as [x|]; [|tauto].
    destruct (String.eqb_spec x ""); [subst; tauto | left; split; congruence]. }
  split.
  { unfold num_or_null. destruct (it_assignedTo it) as [x|]; [|tauto].
    destruct (Z.eqb_spec x 0); [subst; tauto | left; split; congruence]. }
  rewrite !getTodos_todos. simpl. rewrite (MapFacts.values_set_notin _ _ _ Hf), filter_app.
  simpl. rewrite Z.eqb_refl. reflexivity.
Qed.

(** Witness: the "Write spec" todo of the sample store's board. *)
Lemma createTodo_spec_witness :
  reachable scenario /\
  (let (s', t) := createTodo scenario 40 (write_spec 1 1) in
   t_id t = currentTodoId scenario /\ getTodo scenario (t_id t) = None /\
   getTodo s' (t_id t) = Some t /\
   t_createdAt t = 40 /\ updatedAt t = 40 /\ t_boardId t = 1 /\
   ((None = Some (status t) /\ status t <> "") \/
    ((@None string = None \/ @None string = Some "") /\ status t = "todo")) /\
   ((None = Some (priority t) /\ priority t <> "") \/
    ((@None string = None \/ @None string = Some "") /\ priority t = "medium")) /\
   ((None = assignedTo t /\ assignedTo t <> Some 0) \/
    ((@None Z = None \/ @None Z = Some 0) /\ assignedTo t = None)) /\
   map fst (getTodos s' (t_boardId t)) = map fst (getTodos scenario (t_boardId t)) ++ [t]).
Proof.
  assert (H : reachable scenario) by (apply run_reachable; exact reach_init).
  split; [exact H|]. exact (createTodo_spec scenario 40 (write_spec 1 1) H).
Defined.

(** X4. [deleteTodo(T)] returns true exactly when todo [T] existed; afterwards
    [getTodo(T)] is absent, every other todo is kept, and the accounts,
    boards and memberships are untouched. *)
Theorem deleteTodo_spec (s : Store) (id : Z) :
  let (s', r) := deleteTodo s id in
  (r = true <-> getTodo s id <> None) /\ getTodo s' id = None /\
  (forall k, k <> id -> getTodo s' k = getTodo s k) /\
  users s' = users s /\ boards s' = boards s /\ boardMembers s' = boardMembers s.
Proof.
  unfold deleteTodo, getTodo. cbn [todos users boards boardMembers with_todos].
  split.
  { rewrite MapFacts.has_iff, MapFacts.get_None_iff.
    destruct (in_dec Z.eq_dec id (JsMap.keys (todos s))); tauto. }
  split; [apply MapFacts.get_delete_same|]. split; [|store_frame].
  intros k Hk. apply MapFacts.get_delete_other. exact Hk.
Qed.

Lemma delete_fresh_set {V} c (v : V) (m : JsMap.t V) :
  ~ In c (JsMap.keys m) -> JsMap.delete c (JsMap.set c v m) = m.
Proof.
  intros Hf. unfold JsMap.set. apply MapFacts.has_false_iff in Hf as Hh. rewrite Hh.
  unfold JsMap.delete. rewrite filter_app. simpl. rewrite Z.eqb_refl. simpl.
  rewrite app_nil_r. apply MapFacts.has_false_iff in Hh. apply (delete_absent c m Hh).
Qed.

(** X5. On every reachable store, creating a todo and then deleting the
    handle it received gives back the todo map as it was. *)
Theorem createTodo_deleteTodo (s : Store) (now : Z) (it : InsertTodo) (Hreach : reachable s) :
  let (s1, t) := createTodo s now it in
  todos (fst (deleteTodo s1 (t_id t))) = todos s.
Proof.
  destruct (Invariant.reachable_inv s Hreach) as [Hok _].
  pose proof (Invariant.fresh_counter KTodo s (Hok KTodo)) as Hf. simpl in Hf.
  unfold createTodo, deleteTodo. simpl. apply delete_fresh_set. exact Hf.
Qed.

(** Witness: a todo created and deleted on the sample store. *)
Lemma createTodo_deleteTodo_witness :
  reachable scenario /\
  (let (s1, t) := createTodo scenario 40 (write_spec 1 1) in
   todos (fst (deleteTodo s1 (t_id t))) = todos scenario).
Proof.
  assert (H : reachable scenario) by (apply run_reachable; exact reach_init).
  split; [exact H|]. exact (createTodo_deleteTodo scenario 40 (write_spec 1 1) H).
Defined.

Lemma find_entry_app_none {V} (p : V -> bool) (m l : JsMap.t V) :
  JsMap.find_entry p m = None -> JsMap.find_entry p (m ++ l) = JsMap.find_entry p l.
Proof.
  unfold JsMap.find_entry. induction m as [|e m IH]; simpl; [auto|].
  destruct (p (snd e)); [discriminate | exact IH].
Qed.


(** X6. On every reachable store where (B, A) has no membership, adding the
    membership and then removing (B, A) returns true and gives back the
    membership map as it was. *)
Theorem addBoardMember_removeBoardMember (s : Store) (B A : Z) (r : option string)
  (Hreach : reachable s) (Hnone : members_for B A s = []) :
  let s1 := fst (addBoardMember s (mkInsertBoardMember B A r)) in
  let (s2, removed) := removeBoardMember s1 B A in
  removed = true /\ boardMembers s2 = boardMembers s.
Proof.
  destruct (Invariant.reachable_inv s Hreach) as [Hok _].
  pose proof (Invariant.fresh_counter KMember s (Hok KMember)) as Hf. simpl in Hf.
  unfold members_for in Hnone.
  unfold addBoardMember. cbn [im_boardId im_userId im_role].
  rewrite (find_value_none_of _ _ Hnone). cbn [fst].
  unfold removeBoardMember. cbn [boardMembers with_members].
  unfold JsMap.set. apply MapFacts.has_false_iff in Hf as Hh. rewrite Hh.
  apply find_entry_None_iff in Hnone.
  rewrite (find_entry_app_none _ _ _ Hnone). unfold JsMap.find_entry. simpl.
  rewrite !Z.eqb_refl. simpl. split; [reflexivity|].
  unfold JsMap.delete. rewrite filter_app. simpl. rewrite Z.eqb_refl. simpl.
  rewrite app_nil_r. apply (delete_absent _ _ Hf).
Qed.

(** Witness: inviting account 9 to board 1 of the sample store and removing it. *)
Lemma addBoardMember_removeBoardMember_witness :
  reachable scenario /\ members_for 1 9 scenario = [] /\
  (let s1 := fst (addBoardMember scenario (mkInsertBoardMember 1 9 (Some "editor"))) in
   let (s2, removed) := removeBoardMember s1 1 9 in
   removed = true /\ boardMembers s2 = boardMembers scenario).
Proof.
  assert (H : reachable scenario) by (apply run_reachable; exact reach_init).
  assert (Hn : members_for 1 9 scenario = []) by reflexivity.
  split; [exact H|]. split; [exact Hn|].
  exact (addBoardMember_removeBoardMember scenario 1 9 (Some "editor") H Hn).
Defined.

Lemma filter_nil_false {A} (f : A -> bool) (l : list A) x :
  filter f l = [] -> In x l -> f x = false.
Proof.
  intros Hnil Hin. destruct (f x) eqn:E; [|reflexivity].
  assert (In x (filter f l)) as H by (apply filter_In; auto). rewrite Hnil in H. destruct H.
Qed.

Lemma filter_all_true {A} (f : A -> bool) (l : list A) :
  (forall x, In x l -> f x = true) -> filter f l = l.
Proof.
  induction l as [|x l IH]; simpl; intros H; [reflexivity|].
  rewrite (H x (or_introl eq_refl)), IH by auto. reflexivity.
Qed.

Lemma set_fresh {V} k (v : V) (m : JsMap.t V) :
  ~ In k (JsMap.keys m) -> JsMap.set k v m = m ++ [(k, v)].
Proof. intros Hf. unfold JsMap.set. apply MapFacts.has_false_iff in Hf. rewrite Hf. reflexivity. Qed.

(** The deletion loop removes nothing when no value matches. *)
Lemma delete_where_none {V} (p : V -> bool) (m : JsMap.t V) :
  (forall e, In e m -> p (snd e) = false) -> JsMap.delete_where p m m = m.
Proof.
  intros H. rewrite MapFacts.delete_where_filter. apply filter_all_true.
  intros e _. apply negb_true_iff. apply not_true_iff_false. intros Hex.
  apply existsb_exists in Hex as [e' [Hin Hc]]. apply andb_true_iff in Hc as [_ Hc].
  rewrite (H e' Hin) in Hc. discriminate.
Qed.

(** ... and when only a fresh last entry matches, it removes exactly that one. *)
Lemma delete_where_last {V} (p : V -> bool) (m : JsMap.t V) k v :
  (forall e, In e m -> p (snd e) = false) -> ~ In k (JsMap.keys m) -> p v = true ->
  JsMap.delete_where p (m ++ [(k, v)]) (m ++ [(k, v)]) = m.
Proof.
  intros H Hk Hv. rewrite MapFacts.delete_where_filter, filter_app. simpl.
  rewrite existsb_app. simpl. rewrite Z.eqb_refl, Hv, orb_true_r. simpl.
  rewrite app_nil_r. apply filter_all_true. intros e Hin.
  apply negb_true_iff. apply not_true_iff_false. intros Hex.
  rewrite existsb_app in Hex. apply orb_true_iff in Hex as [Hex|Hex].
  - apply existsb_exists in Hex as [e' [Hin' Hc]]. apply andb_true_iff in Hc as [_ Hc].
    rewrite (H e' Hin') in Hc. discriminate.
  - simpl in Hex. rewrite orb_false_r in Hex. apply andb_true_iff in Hex as [Hke _].
    apply Z.eqb_eq in Hke. subst k. apply Hk. apply (in_map fst _ _ Hin).
Qed.

(** X7. On every reachable store where no membership and no todo refers to
    the next board handle yet, creating a board and then deleting it returns
    true and gives back the accounts, boards, memberships and todos as they
    were. *)
Theorem createBoard_deleteBoard (s : Store) (now : Z) (ib : InsertBoard)
  (Hreach : reachable s)
  (Hm : getBoardMembers s (currentBoardId s) = [])
  (Ht : getTodos s (currentBoardId s) = []) :
  let (s1, b) := createBoard now s ib in
  let (s2, deleted) := deleteBoard s1 (b_id b) in
  deleted = true /\ users s2 = users s /\ boards s2 = boards s /\
  boardMembers s2 = boardMembers s /\ todos s2 = todos s.
Proof.
  destruct (Invariant.reachable_inv s Hreach) as [Hok _].
  pose proof (Invariant.fresh_counter KBoard s (Hok KBoard)) as Hfb. simpl in Hfb.
  pose proof (Invariant.fresh_counter KMember s (Hok KMember)) as Hfm. simpl in Hfm.
  assert (Hm' : forall e, In e (boardMembers s) ->
                  Z.eqb (m_boardId (snd e)) (currentBoardId s) = false).
  { intros e Hin. apply (filter_nil_false _ _ _ Hm). apply (in_map snd _ _ Hin). }
  assert (Ht' : forall e, In e (todos s) ->
                  Z.eqb (t_boardId (snd e)) (currentBoardId s) = false).
  { intros e Hin. assert (Hnil : map fst (getTodos s (currentBoardId s)) = []) by (rewrite Ht; reflexivity).
    rewrite getTodos_todos in Hnil. apply (filter_nil_false _ _ _ Hnil). apply (in_map snd _ _ Hin). }
  unfold createBoard. cbn [with_boards boards boardMembers b_id].
  unfold addBoardMember. cbn [boardMembers with_boards im_boardId im_userId im_role].
  rewrite find_value_none_of.
  2:{ apply MapFacts.filter_all_false. intros m Hin. apply in_map_iff in Hin as [e [<- Hin]].
      rewrite (Hm' e Hin). reflexivity. }
  unfold deleteBoard. cbn [fst with_members with_boards with_todos
                           users boards boardMembers todos currentBoardMemberId].
  rewrite (set_fresh _ _ _ Hfb), (set_fresh _ _ _ Hfm).
  assert (Hin : JsMap.has (currentBoardId s) (boards s ++ [(currentBoardId s,
      mkBoard (currentBoardId s) (ib_title ib) (str_or_null (ib_description ib))
              (str_or (ib_color ib) "primary") (ib_createdBy ib) now)]) = true).
  { apply MapFacts.has_iff. unfold JsMap.keys. rewrite map_app. apply in_or_app. simpl. auto. }
  rewrite Hin. cbn [with_members with_boards with_todos users boards boardMembers todos].
  split; [reflexivity|]. split; [reflexivity|]. split.
  { unfold JsMap.delete. rewrite filter_app. simpl. rewrite Z.eqb_refl. simpl.
    rewrite app_nil_r. apply (delete_absent _ _ Hfb). }
  split.
  { apply delete_where_last; [exact Hm' | exact Hfm | apply Z.eqb_refl]. }
  apply delete_where_none. exact Ht'.
Qed.

(** Witness: a second board created on the sample store and deleted again. *)
Lemma createBoard_deleteBoard_witness :
  reachable scenario /\ getBoardMembers scenario (currentBoardId scenario) = [] /\
  getTodos scenario (currentBoardId scenario) = [] /\
  (let (s1, b) := createBoard 50 scenario (launch_plan 1) in
   let (s2, deleted) := deleteBoard s1 (b_id b) in
   deleted = true /\ users s2 = users scenario /\ boards s2 = boards scenario /\
   boardMembers s2 = boardMembers scenario /\ todos s2 = todos scenario).
Proof.
  assert (H : reachable scenario) by (apply run_reachable; exact reach_init).
  assert (Hm : getBoardMembers scenario (currentBoardId scenario) = []) by reflexivity.
  assert (Ht : getTodos scenario (currentBoardId scenario) = []) by reflexivity.
  split; [exact H|]. split; [exact Hm|]. split; [exact Ht|].
  exact (createBoard_deleteBoard scenario 50 (launch_plan 1) H Hm Ht).
Defined.

Lemma set_add_spec (x : Z) (xs : list Z) :
  NoDup xs -> NoDup (set_add x xs) /\ (forall y, In y (set_add x xs) <-> In y xs \/ y = x).
Proof.
  intros Hnd. unfold set_add. destruct (existsb (Z.eqb x) xs) eqn:E.
  - apply existsb_exists in E as [x' [Hin Hx]]. apply Z.eqb_eq in Hx. subst x'.
    split; [exact Hnd|]. intros y. split; [tauto|]. intros [H|H]; [exact H | subst; exact Hin].
  - split.
    + apply NoDup_app; [exact Hnd | constructor; [simpl; tauto | constructor] |].
      intros y Hy [Hy'|[]]. subst y. apply not_true_iff_false in E. apply E.
      apply existsb_exists. exists x. rewrite Z.eqb_refl. auto.
    + intros y. rewrite in_app_iff. simpl. intuition congruence.
Qed.

Lemma fold_set_add_spec {A} (f : A -> Z) (l : list A) (acc : list Z) :
  NoDup acc ->
  NoDup (fold_left (fun acc x => set_add (f x) acc) l acc) /\
  (forall y, In y (fold_left (fun acc x => set_add (f x) acc) l acc) <->
             In y acc \/ exists x, In x l /\ f x = y).
Proof.
  revert acc. induction l as [|a l IH]; intros acc Hnd; simpl.
  - split; [exact Hnd|]. intros y. split; [tauto|]. intros [H|[x [[] _]]]. exact H.
  - destruct (set_add_spec (f a) acc Hnd) as [Hnd' Hin'].
    destruct (IH _ Hnd') as [H1 H2]. split; [exact H1|]. intros y. rewrite H2, Hin'.
    split.
    + intros [[H|H]|[x [Hx Hy]]]; [tauto | right; exists a; auto | right; exists x; auto].
    + intros [H|[x [[Hx|Hx] Hy]]]; [tauto | subst; tauto | right; exists x; auto].
Qed.

(** X8. [getBoardsByUser(A)] reports, once each, exactly the boards created by
    [A] and the boards [A] holds a membership for, each with the board (if
    stored) and the todo and membership counts of its handle. *)
Theorem getBoardsByUser_ids (s : Store) (A : Z) :
  getBoardsByUser s A =
    map (fun id => mkBWC (JsMap.get id (boards s)) (count_todos s id) (count_members s id))
        (boardIdsByUser s A) /\
  NoDup (boardIdsByUser s A) /\
  (forall x, In x (boardIdsByUser s A) <->
     (exists b, In b (JsMap.values (boards s)) /\ createdBy b = A /\ b_id b = x) \/
     (exists m, In m (JsMap.values (boardMembers s)) /\ m_userId m = A /\ m_boardId m = x)).
Proof.
  split; [reflexivity|]. unfold boardIdsByUser.
  destruct (fold_set_add_spec b_id
              (filter (fun b => Z.eqb (createdBy b) A) (JsMap.values (boards s))) []
              (NoDup_nil _)) as [Hnd0 Hin0].
  destruct (fold_set_add_spec m_boardId
              (filter (fun m => Z.eqb (m_userId m) A) (JsMap.values (boardMembers s)))
              _ Hnd0) as [Hnd1 Hin1].
  split; [exact Hnd1|]. intros x. rewrite Hin1, Hin0. split.
  - intros [[[]|[b [Hb Hx]]]|[m [Hm Hx]]]; apply filter_In in Hb || apply filter_In in Hm.
    + destruct Hb as [Hb Hc]. apply Z.eqb_eq in Hc. left. exists b. auto.
    + destruct Hm as [Hm Hc]. apply Z.eqb_eq in Hc. right. exists m. auto.
  - intros [[b [Hb [Hc Hx]]]|[m [Hm [Hc Hx]]]].
    + left. right. exists b. split; [apply filter_In; split; [exact Hb | apply Z.eqb_eq; exact Hc] | exact Hx].
    + right. exists m. split; [apply filter_In; split; [exact Hm | apply Z.eqb_eq; exact Hc] | exact Hx].
Qed.

(** X9. [getBoards()] has one entry per stored board, in map order, and each
    entry's counts are the lengths of [getTodos] and [getBoardMembers] for
    that board. *)
Theorem getBoards_counts (s : Store) :
  map bwc_board (getBoards s) = map Some (JsMap.values (boards s)) /\
  forall e, In e (getBoards s) ->
    exists b, bwc_board e = Some b /\ In b (JsMap.values (boards s)) /\
      todoCount e = List.length (getTodos s (b_id b)) /\
      memberCount e = List.length (getBoardMembers s (b_id b)).
Proof.
  unfold getBoards. split.
  - rewrite map_map. reflexivity.
  - intros e Hin. apply in_map_iff in Hin as [b [<- Hb]]. exists b.
    split; [reflexivity|]. split; [exact Hb|]. cbn [todoCount memberCount]. split.
    + unfold count_todos. rewrite <- getTodos_todos, length_map. reflexivity.
    + reflexivity.
Qed.









Lemma filter_length_le_cons {A} (f : A -> bool) x l :
  (List.length (filter f l) <= List.length (filter f (x :: l)))%nat.
Proof. simpl. destruct (f x); simpl; lia. Qed.

Lemma member_users_NoDup (B : Z) (l : list BoardMember) :
  (forall a, (List.length (filter (pair_of B a) l) <= 1)%nat) ->
  NoDup (map m_userId (filter (fun m => Z.eqb (m_boardId m) B) l)).
Proof.
  induction l as [|x l IH]; intros H; simpl; [constructor|].
  assert (IH' : NoDup (map m_userId (filter (fun m => Z.eqb (m_boardId m) B) l))).
  { apply IH. intros a. specialize (H a). pose proof (filter_length_le_cons (pair_of B a) x l). lia. }
  destruct (Z.eqb_spec (m_boardId x) B) as [Hb|Hb]; [|exact IH'].
  simpl. constructor; [|exact IH'].
  intros Hin. apply in_map_iff in Hin as [y [Hy Hin]]. apply filter_In in Hin as [Hin Hby].
  specialize (H (m_userId x)). simpl in H. unfold pair_of at 1 in H.
  rewrite Hb, !Z.eqb_refl in H. simpl in H.
  assert (In y (filter (pair_of B (m_userId x)) l)) as Hy'.
  { apply filter_In. split; [exact Hin|]. unfold pair_of. rewrite Hby, Hy, Z.eqb_refl. reflexivity. }
  destruct (filter (pair_of B (m_userId x)) l); [destruct Hy' | simpl in H; lia].
Qed.

(** X12. On every reachable store, [getBoardWithMembers(B)] is absent exactly
    when board [B] is, and otherwise returns the stored board with one entry
    per membership of [B], each the account of that membership, and no
    account listed twice. *)
Theorem getBoardWithMembers_spec (s : Store) (B : Z) (Hreach : reachable s) :
  match getBoardWithMembers s B with
  | None => getBoard s B = None
  | Some (b, users_of) =>
      getBoard s B = Some b /\
      users_of = map (fun m => JsMap.get (m_userId m) (users s)) (getBoardMembers s B) /\
      NoDup (map m_userId (getBoardMembers s B))
  end.
Proof.
  destruct (Invariant.reachable_inv s Hreach) as [_ Hamo].
  unfold getBoardWithMembers, getBoard. destruct (JsMap.get B (boards s)) as [b|]; [|reflexivity].
  split; [reflexivity|]. split.
  - unfold getBoardMembers. rewrite map_map. reflexivity.
  - apply member_users_NoDup. intros a. exact (Hamo B a).
Qed.

(** Witness: board 1 of the sample store, with its owner and one viewer. *)
Lemma getBoardWithMembers_spec_witness :
  reachable scenario /\
  match getBoardWithMembers scenario 1 with
  | None => getBoard scenario 1 = None
  | Some (b, users_of) =>
      getBoard scenario 1 = Some b /\
      users_of = map (fun m => JsMap.get (m_userId m) (users scenario)) (getBoardMembers scenario 1) /\
      NoDup (map m_userId (getBoardMembers scenario 1))
  end.
Proof.
  assert (H : reachable scenario) by (apply run_reachable; exact reach_init).
  split; [exact H | exact (getBoardWithMembers_spec scenario 1 H)].
Defined.

(** X13. [updateTodo(T, updates)] on a missing todo returns absent and changes
    nothing; on a stored one it replaces only the value under [T], keeping
    every handle, and the stored todo carries the [id] of [updates] when it
    has one, else its old [id]. *)
Theorem updateTodo_spec (now : Z) (s : Store) (id : Z) (p : PartialTodo) :
  let (s', r) := updateTodo now s id p in
  match getTodo s id with
  | None => r = None /\ s' = s
  | Some t =>
      r = Some (merge_todo t p now) /\ getTodo s' id = r /\
      t_id (merge_todo t p now) = upd (pt_id p) (t_id t) /\
      JsMap.keys (todos s') = JsMap.keys (todos s) /\
      (forall k, k <> id -> getTodo s' k = getTodo s k) /\
      users s' = users s /\ boards s' = boards s /\ boardMembers s' = boardMembers s
  end.
Proof.
  unfold updateTodo, getTodo. destruct (JsMap.get id (todos s)) as [t|] eqn:E; [|auto].
  cbn [todos users boards boardMembers with_todos].
  split; [reflexivity|]. split; [apply MapFacts.get_set_same|]. split; [reflexivity|].
  split.
  - apply MapFacts.keys_set_in. apply MapFacts.get_Some_In in E. exact (MapFacts.In_keys _ _ _ E).
  - split; [|store_frame]. intros k Hk. apply MapFacts.get_set_other. exact Hk.
Qed.


End Extra.
